(** * Shallow embedding of terraform-provider-circonus translation logic

    The Go sources model check bundles, graphs and rule sets of the Circonus
    API.  Go maps ([map[K]V]) are association lists whose order is the
    iteration order; Go strings are [string]; Go [uint] values are [N];
    fallible functions return [result]. *)

From Stdlib Require Import String Ascii List Bool ZArith NArith QArith Lia.
From Stdlib Require Import DecimalString DecimalN Permutation.
Import ListNotations.
Open Scope string_scope.

(** ** Common infrastructure *)

(** A Go [(T, error)] pair: either a value or an error message. *)
Inductive result (A : Type) : Type :=
| Ok : A -> result A
| Err : string -> result A.
Arguments Ok {A} _.
Arguments Err {A} _.

Definition is_err {A} (r : result A) : bool :=
  match r with Ok _ => false | Err _ => true end.

(** Go map with string keys, as an association list without duplicate keys. *)
Definition gomap := list (string * string).

Fixpoint map_get (k : string) (m : gomap) : option string :=
  match m with
  | [] => None
  | (k', v) :: m' => if String.eqb k k' then Some v else map_get k m'
  end.

(** [m[k] = v]: overwrite in place, or add a new entry. *)
Fixpoint map_set (k v : string) (m : gomap) : gomap :=
  match m with
  | [] => [(k, v)]
  | (k', v') :: m' =>
      if String.eqb k k' then (k', v) :: m' else (k', v') :: map_set k v m'
  end.

(** [delete(m, k)]. *)
Definition map_del (k : string) (m : gomap) : gomap :=
  filter (fun kv => negb (String.eqb k (fst kv))) m.

(** [m[k]] with Go's zero value for a missing key. *)
Definition map_get_zero (k : string) (m : gomap) : string :=
  match map_get k m with Some v => v | None => "" end.

(** [fmt.Sprintf("%d", n)] for an unsigned value. *)
Definition fmt_d (n : N) : string := NilZero.string_of_uint (N.to_uint n).

(** [strconv.ParseInt(s, 10, 64)]: optional sign, decimal digits, int64 range. *)
Definition go_parse_int64 (s : string) : option Z :=
  let in_range z := andb (Z.leb (- 2 ^ 63) z) (Z.leb z (2 ^ 63 - 1)) in
  let digits sgn t :=
    match NilZero.uint_of_string t with
    | Some d => let z := (sgn * Z.of_N (N.of_uint d))%Z in
                if in_range z then Some z else None
    | None => None
    end in
  match s with
  | String c t =>
      if Ascii.eqb c "-" then digits (-1)%Z t
      else if Ascii.eqb c "+" then digits 1%Z t
      else digits 1%Z s
  | EmptyString => None
  end.

(** [time.ParseDuration(s + "s")] for a string [s] of decimal digits (the
    only strings the schema validators [^[0-9]+$] admit): the duration in
    nanoseconds, or an overflow error past the int64 range. *)
Definition go_parse_duration_secs (s : string) : option Z :=
  match NilZero.uint_of_string s with
  | Some d =>
      let ns := (Z.of_N (N.of_uint d) * 1000000000)%Z in
      if Z.leb ns (2 ^ 63 - 1) then Some ns else None
  | None => None
  end.

(** ** Check bundles: [circonusCheck.Validate] (check.go) *)
Module Check.

(** [float32(n)] for a Go [uint]: round to nearest, ties to even, on a
    24-bit significand (no overflow is possible below 2^64). *)
Definition float32_of_uint (n : N) : N :=
  if N.ltb n (2 ^ 24) then n
  else
    let s := (N.log2 n - 23)%N in
    let q := (n / 2 ^ s)%N in
    let r := (n mod 2 ^ s)%N in
    let h := (2 ^ (s - 1))%N in
    let q' := if orb (N.ltb h r) (andb (N.eqb r h) (N.odd q)) then (q + 1)%N else q in
    (q' * 2 ^ s)%N.

Record metric := mkMetric { metric_name : string; metric_type : string; metric_status : string }.

(** The fields of [api.CheckBundle] that the translation code reads.  The
    [Timeout] field is a Go [float32]; its value is a rational number. *)
Record check_bundle := mkCheckBundle {
  cb_type : string;
  cb_target : string;
  cb_period : N;
  cb_timeout : Q;
  cb_metrics : list metric;
  cb_metric_filters : list (list string);
  cb_config : gomap
}.

(** The errors [Validate] can return, one per [return fmt.Errorf]. *)
Inductive validate_error :=
| ErrMetricsAndFilters      (* "Metrics and MetricFilters both have entries" *)
| ErrNoMetrics              (* "You must supply one or more 'metric' blocks ..." *)
| ErrTimeoutExceedsPeriod   (* "Timeout (%f) can not exceed period (%d)" *)
| ErrCloudWatchPeriod       (* "Period must be either 1m or 5m ..." *)
| ErrConsulMode.            (* "... must have at least one check mode set ..." *)

(** Check type names of the API ([apiCheckTypeCloudWatchAttr],
    [apiCheckTypeConsulAttr]). *)
Definition apiCheckTypeCloudWatchAttr := "cloudwatch".
Definition apiCheckTypeConsulAttr := "consul".
Definition config_URL := "url".

Definition nonempty {A} (l : list A) : bool :=
  match l with [] => false | _ => true end.

(** [func (c *circonusCheck) Validate() error]; [None] is [nil]. *)
Definition Validate (c : check_bundle) : option validate_error :=
  if andb (nonempty (cb_metrics c)) (nonempty (cb_metric_filters c)) then
    Some ErrMetricsAndFilters
  else if andb (negb (nonempty (cb_metrics c))) (negb (nonempty (cb_metric_filters c))) then
    Some ErrNoMetrics
  else if negb (Qle_bool (cb_timeout c) (inject_Z (Z.of_N (float32_of_uint (cb_period c))))) then
    Some ErrTimeoutExceedsPeriod
  else if String.eqb (cb_type c) apiCheckTypeCloudWatchAttr then
    if orb (N.eqb (cb_period c) 60) (N.eqb (cb_period c) 300) then None
    else Some ErrCloudWatchPeriod
  else if String.eqb (cb_type c) apiCheckTypeConsulAttr then
    match map_get config_URL (cb_config c) with
    | Some v => if String.eqb v "" then Some ErrConsulMode else None
    | None => Some ErrConsulMode
    end
  else None.

End Check.

(** ** HTTP check type (resource_circonus_check_http.go) *)
Module HTTP.
Import Check.

(** Keys of the API's free-form check config ([config.Key] constants of
    the vendor client package go-apiclient/config). *)
Definition config_AuthMethod := "auth_method".
Definition config_AuthPassword := "auth_password".
Definition config_AuthUser := "auth_user".
Definition config_Body := "body".
Definition config_CAChain := "ca_chain".
Definition config_CertFile := "certificate_file".
Definition config_Ciphers := "ciphers".
Definition config_Code := "code".
Definition config_Extract := "extract".
Definition config_HeaderPrefix := "header_".
Definition config_HTTPVersion := "http_version".
Definition config_KeyFile := "key_file".
Definition config_Method := "method".
Definition config_Payload := "payload".
Definition config_Port := "port".
Definition config_ReadLimit := "read_limit".
Definition config_Redirects := "redirects".
Definition config_ReverseSecretKey := "reverse:secret_key".
Definition config_SubmissionURL := "submission_url".

(** Values stored in the Terraform state map [httpConfig]. *)
Inductive sval :=
| SStr (s : string)
| SInt (i : Z)
| SMap (m : gomap).

Definition smap := list (string * sval).

Fixpoint smap_set (k : string) (v : sval) (m : smap) : smap :=
  match m with
  | [] => [(k, v)]
  | (k', v') :: m' =>
      if String.eqb k k' then (k', v) :: m' else (k', v') :: smap_set k v m'
  end.

(** One element of the [http] set of the Terraform config, as read through
    [newInterfaceMap]: [Some v] when the attribute is found. *)
Record http_block := mkHttpBlock {
  auth_method : option string;
  auth_password : option string;
  auth_user : option string;
  body_regexp : option string;
  ca_chain : option string;
  certificate_file : option string;
  ciphers : option string;
  code : option string;
  extract : option string;
  headers : gomap;
  key_file : option string;
  method : option string;
  payload : option string;
  read_limit : option Z;
  url : option string;
  version : option string;
  redirects : option string
}.

(** [fmt.Sprintf("%d", i)] for a Go [int]. *)
Definition fmt_int (i : Z) : string := NilZero.string_of_int (Z.to_int i).

(** The [Host] field of [url.Parse(s)] for an absolute URL
    [scheme://[userinfo@]host[:port][/path][?query][#fragment]]; empty when
    [s] has no authority. *)
Fixpoint after_scheme (s : string) : option string :=
  match s with
  | String ":" (String "/" (String "/" rest)) => Some rest
  | String _ t => after_scheme t
  | EmptyString => None
  end.

Fixpoint authority_of (s : string) : string :=
  match s with
  | EmptyString => EmptyString
  | String c t =>
      if orb (Ascii.eqb c "/") (orb (Ascii.eqb c "?") (Ascii.eqb c "#")) then EmptyString
      else String c (authority_of t)
  end.

Fixpoint after_last_at (s cur : string) : string :=
  match s with
  | EmptyString => cur
  | String c t => if Ascii.eqb c "@" then after_last_at t t else after_last_at t cur
  end.

Definition url_host (s : string) : string :=
  match after_scheme s with
  | Some rest => let a := authority_of rest in after_last_at a a
  | None => ""
  end.

(** [strings.SplitN(s, ":", 2)]. *)
Fixpoint split_colon (s : string) : list string :=
  match s with
  | EmptyString => [""]
  | String c t =>
      if Ascii.eqb c ":" then [""; t]
      else match split_colon t with
           | h :: r => String c h :: r
           | [] => [String c EmptyString]
           end
  end.

Definition set_opt (k : string) (v : option string) (m : gomap) : gomap :=
  match v with Some s => map_set k s m | None => m end.

(** [checkConfigToAPIHTTP]: writes the first block of [l] into [c.Config]. *)
Definition checkConfigToAPIHTTP (c : check_bundle) (l : list http_block) : result check_bundle :=
  match l with
  | [] => Err "0 http configs found in list"
  | hc :: _ =>
      let cfg := cb_config c in
      let cfg := set_opt config_AuthMethod (auth_method hc) cfg in
      let cfg := set_opt config_AuthPassword (auth_password hc) cfg in
      let cfg := set_opt config_AuthUser (auth_user hc) cfg in
      let cfg := set_opt config_Body (body_regexp hc) cfg in
      let cfg := set_opt config_CAChain (ca_chain hc) cfg in
      let cfg := set_opt config_CertFile (certificate_file hc) cfg in
      let cfg := set_opt config_Ciphers (ciphers hc) cfg in
      let cfg := set_opt config_Code (code hc) cfg in
      let cfg := set_opt config_Extract (extract hc) cfg in
      let cfg := fold_left (fun m kv => map_set (config_HeaderPrefix ++ fst kv) (snd kv) m)
                           (headers hc) cfg in
      let cfg := set_opt config_KeyFile (key_file hc) cfg in
      let cfg := set_opt config_Method (method hc) cfg in
      let cfg := set_opt config_Payload (payload hc) cfg in
      let cfg := match read_limit hc with
                 | Some i => map_set config_ReadLimit (fmt_int i) cfg
                 | None => cfg
                 end in
      let '(cfg, target) :=
        match url hc with
        | Some u =>
            let cfg := map_set config_URL u cfg in
            let hostInfo := split_colon (url_host u) in
            let target := if String.eqb (cb_target c) "" then hd "" hostInfo else cb_target c in
            let cfg := match hostInfo with
                       | _ :: port :: _ =>
                           if String.eqb (map_get_zero config_Port cfg) "" then
                             map_set config_Port port cfg
                           else cfg
                       | _ => cfg
                       end in
            (cfg, target)
        | None => (cfg, cb_target c)
        end in
      let cfg := set_opt config_HTTPVersion (version hc) cfg in
      let cfg := set_opt config_Redirects (redirects hc) cfg in
      Ok {| cb_type := "http"; cb_target := target; cb_period := cb_period c;
            cb_timeout := cb_timeout c; cb_metrics := cb_metrics c;
            cb_metric_filters := cb_metric_filters c; cb_config := cfg |}
  end.

(** The local state of [checkAPIToStateHTTP]: [httpConfig] and [swamp]. *)
Definition save_state := (smap * gomap)%type.

(** [saveStringConfigToState]. *)
Definition saveString (config : gomap) (apiKey attr : string) (st : save_state) : save_state :=
  let '(hc, swamp) := st in
  let hc := match map_get apiKey config with Some v => smap_set attr (SStr v) hc | None => hc end in
  (hc, map_del apiKey swamp).

(** [saveIntConfigToState]: a value that does not parse is logged and the
    closure returns before the [delete]. *)
Definition saveInt (config : gomap) (apiKey attr : string) (st : save_state) : save_state :=
  let '(hc, swamp) := st in
  match map_get apiKey config with
  | Some v =>
      match go_parse_int64 v with
      | Some i => (smap_set attr (SInt i) hc, map_del apiKey swamp)
      | None => (hc, swamp)
      end
  | None => (hc, map_del apiKey swamp)
  end.

(** The header loop: every key longer than the prefix is removed from
    [swamp]; those that start with the prefix also become headers. *)
Definition header_loop (config : gomap) (hdrs swamp : gomap) : gomap * gomap :=
  let plen := String.length config_HeaderPrefix in
  fold_left
    (fun acc kv =>
       let '(hdrs, swamp) := acc in
       let '(k, v) := kv in
       if Nat.leb (String.length k) plen then (hdrs, swamp)
       else
         let hdrs := if String.eqb (substring 0 plen k) config_HeaderPrefix
                     then map_set (substring plen (String.length k - plen) k) v hdrs
                     else hdrs in
         (hdrs, map_del k swamp))
    config (hdrs, swamp).

Definition whitelisted (k : string) : bool :=
  orb (String.eqb k config_ReverseSecretKey) (String.eqb k config_SubmissionURL).

(** The final loop over [swamp]: whitelisted keys are deleted from
    [c.Config]; the first other key aborts with the provider-bug error. *)
Fixpoint swamp_loop (keys : list string) (config : gomap) : gomap * option string :=
  match keys with
  | [] => (config, None)
  | k :: ks =>
      let config := if whitelisted k then map_del k config else config in
      if whitelisted k then swamp_loop ks config
      else (config, Some "PROVIDER BUG: API Config not empty")
  end.

(** [checkAPIToStateHTTP]: the updated [c.Config] and either the [http]
    state block or the error. *)
Definition checkAPIToStateHTTP (config : gomap) : gomap * result smap :=
  let st : save_state := ([], config) in
  let st := saveString config config_AuthMethod "auth_method" st in
  let st := saveString config config_AuthPassword "auth_password" st in
  let st := saveString config config_AuthUser "auth_user" st in
  let st := saveString config config_Body "body_regexp" st in
  let st := saveString config config_CAChain "ca_chain" st in
  let st := saveString config config_CertFile "certificate_file" st in
  let st := saveString config config_Ciphers "ciphers" st in
  let st := saveString config config_Code "code" st in
  let st := saveString config config_Extract "extract" st in
  let '(hc, swamp) := st in
  let '(hdrs, swamp) := header_loop config [] swamp in
  let st := (smap_set "headers" (SMap hdrs) hc, swamp) in
  let st := saveString config config_KeyFile "key_file" st in
  let st := saveString config config_Method "method" st in
  let st := saveString config config_Payload "payload" st in
  let st := saveInt config config_ReadLimit "read_limit" st in
  let st := saveString config config_URL "url" st in
  let st := saveString config config_HTTPVersion "version" st in
  let st := saveString config config_Redirects "redirects" st in
  let '(hc, swamp) := st in
  match swamp_loop (map fst swamp) config with
  | (config', Some e) => (config', Err e)
  | (config', None) => (config', Ok hc)
  end.

(** The HTTP part of [ParseConfig] ([checkConfigToAPI], [Fixup], which
    only touches CloudWatch checks, and [Validate]) followed by the HTTP part
    of [checkRead] ([parseCheckTypeConfig] dispatching on ["http"]). *)
Definition http_config_roundtrip (c0 : check_bundle) (blk : http_block) : result smap :=
  match checkConfigToAPIHTTP c0 [blk] with
  | Err e => Err e
  | Ok c =>
      match Validate c with
      | Some _ => Err "validation failed"
      | None => snd (checkAPIToStateHTTP (cb_config c))
      end
  end.

End HTTP.

(** ** Graphs (resource_circonus_graph.go) *)
Module Graph.

(** The fields of [api.GraphDatapoint] the locator code writes.  [Derive]
    is an [interface{}] holding [bool(false)] ([None]) or a string. *)
Record datapoint := mkDatapoint {
  dp_name : string;
  dp_check_id : N;
  dp_metric_name : string;
  dp_caql : option string;
  dp_search : option string;
  dp_metric_type : string;
  dp_derive : option string
}.

Record metric_cluster := mkMetricCluster {
  mc_name : string;
  mc_aggregate_func : string;
  mc_color : option string
}.

(** The metric-locator step of [circonusGraph.ParseConfig] for one
    [metric] block.  [check] is the id matched out of the [check] attribute
    (0 when absent or not matching [config.CheckCIDRegex]); [name], [caql]
    and [search] are the [strings.TrimSpace]d attributes ("" when absent). *)
Definition parse_locator (dp : datapoint) (check : N) (name caql search : string)
  : result datapoint :=
  let dp := {| dp_name := dp_name dp; dp_check_id := dp_check_id dp;
               dp_metric_name := dp_metric_name dp; dp_caql := None; dp_search := None;
               dp_metric_type := dp_metric_type dp; dp_derive := dp_derive dp |} in
  let set_ne s := negb (String.eqb s "") in
  if andb (N.eqb check 0) (set_ne name) then
    Err "locator using metric_name requires check"
  else if andb (N.ltb 0 check) (negb (set_ne name)) then
    Err "locator using check requires metric_name"
  else if andb (N.ltb 0 check) (orb (set_ne caql) (set_ne search)) then
    Err "locator issue"
  else if andb (set_ne caql) (orb (negb (N.eqb check 0)) (orb (set_ne name) (set_ne search))) then
    Err "locator issue"
  else if andb (set_ne search) (orb (negb (N.eqb check 0)) (orb (set_ne name) (set_ne caql))) then
    Err "locator issue"
  else if N.ltb 0 check then
    Ok {| dp_name := dp_name dp; dp_check_id := check; dp_metric_name := name;
          dp_caql := None; dp_search := None;
          dp_metric_type := dp_metric_type dp; dp_derive := dp_derive dp |}
  else if set_ne caql then
    Ok {| dp_name := dp_name dp; dp_check_id := dp_check_id dp;
          dp_metric_name := dp_metric_name dp; dp_caql := Some caql; dp_search := None;
          dp_metric_type := dp_metric_type dp; dp_derive := dp_derive dp |}
  else if set_ne search then
    Ok {| dp_name := dp_name dp; dp_check_id := dp_check_id dp;
          dp_metric_name := dp_metric_name dp; dp_caql := None; dp_search := Some search;
          dp_metric_type := dp_metric_type dp; dp_derive := dp_derive dp |}
  else Ok dp.

(** [func (g *circonusGraph) Validate() error], over the datapoints and
    metric clusters. *)
Fixpoint validate_datapoints (dps : list datapoint) : option string :=
  match dps with
  | [] => None
  | dp :: dps' =>
      if andb (negb (N.eqb (dp_check_id dp) 0)) (String.eqb (dp_metric_name dp) "") then
        Some "check is set, missing attribute metric_name must also be set"
      else if andb (N.eqb (dp_check_id dp) 0) (negb (String.eqb (dp_metric_name dp) "")) then
        Some "metric_name is set, missing attribute check must also be set"
      else if andb (String.eqb (dp_metric_type dp) "text")
                   (match dp_derive dp with Some _ => true | None => false end) then
        Some "function is mutually exclusive when metric_type=text"
      else validate_datapoints dps'
  end.

Fixpoint validate_clusters (mcs : list metric_cluster) : option string :=
  match mcs with
  | [] => None
  | mc :: mcs' =>
      if andb (negb (String.eqb (mc_aggregate_func mc) ""))
              (match mc_color mc with None => true | Some c => String.eqb c "" end) then
        Some "color is a required attribute for graphs with aggregate set"
      else validate_clusters mcs'
  end.

Definition Validate (dps : list datapoint) (mcs : list metric_cluster) : option string :=
  match validate_datapoints dps with
  | Some e => Some e
  | None => validate_clusters mcs
  end.

(** [graphRead]: the [switch] on [datapoint.Axis] (and, written the same
    way, on [metricCluster.Axis]). *)
Definition axis_api_to_state (axis : string) : result string :=
  if orb (String.eqb axis "l") (String.eqb axis "") then Ok "left"
  else if String.eqb axis "r" then Ok "right"
  else Err "PROVIDER BUG: Unsupported axis type".

(** [circonusGraph.ParseConfig]: the [switch] on the [axis] attribute of a
    [metric] (and, written the same way, of a [metric_cluster]) block;
    [None] when the attribute is not found, leaving [Axis] at "". *)
Definition axis_state_to_api (attr : option string) : result string :=
  match attr with
  | None => Ok ""
  | Some v =>
      if orb (String.eqb v "left") (String.eqb v "") then Ok "l"
      else if String.eqb v "right" then Ok "r"
      else Err "PROVIDER BUG: Unsupported axis attribute"
  end.

End Graph.

(** ** Delete (check.go [checkDelete], resource_circonus_graph.go [graphDelete]) *)
Module Delete.

(** The resource data handle: only its ID matters to Delete. *)
Record resource_data := mkResourceData { rd_id : string }.

(** The result of the vendor client's delete call ([err]). *)
Definition client_result := option string.

(** [checkDelete]: on a client error the diagnostic is returned before
    [d.SetId("")]. *)
Definition checkDelete (d : resource_data) (client : string -> client_result)
  : option string * resource_data :=
  match client (rd_id d) with
  | Some err => (Some err, d)
  | None => (None, mkResourceData "")
  end.

(** A double-quote character. *)
Definition dquote : string := String (Ascii.ascii_of_nat 34) EmptyString.

(** [graphDelete]: same shape, with the error wrapped as
    [fmt.Errorf("unable to delete graph %q: %w", d.Id(), err)]; the ID is
    quoted as is (graph IDs [/graph/<uuid>] contain nothing [%q] escapes). *)
Definition graphDelete (d : resource_data) (client : string -> client_result)
  : option string * resource_data :=
  match client (rd_id d) with
  | Some err => (Some ("unable to delete graph " ++ dquote ++ rd_id d ++ dquote ++ ": " ++ err), d)
  | None => (None, mkResourceData "")
  end.

End Delete.

(** ** Rule sets (resource_circonus_rule_set.go) *)
Module RuleSet.

(** [RuleSetRule.Value]: unset, the float64 seconds of an [absent]
    criteria, or a string. *)
Inductive rule_value :=
| VNil
| VSeconds (q : Q)
| VStr (s : string).

Record rule := mkRule {
  criteria : string;
  value : rule_value;
  wait : N;
  severity : N;
  windowing_function : option string;
  windowing_duration : N;
  windowing_min_duration : N
}.

Record rule_set := mkRuleSet {
  rs_metric_name : string;
  rs_metric_pattern : string;
  rs_metric_type : string;
  rs_rules : list rule
}.

(** API criteria names ([apiRuleSet*]). *)
Definition apiRuleSetAbsent := "on absence".
Definition apiRuleSetChanged := "on change".
Definition apiRuleSetContains := "contains".
Definition apiRuleSetMatch := "match".
Definition apiRuleSetMaxValue := "max value".
Definition apiRuleSetMinValue := "min value".
Definition apiRuleSetEqValue := "equals".
Definition apiRuleSetNotEqValue := "does not equal".
Definition apiRuleSetNotContains := "does not contain".
Definition apiRuleSetNotMatch := "does not match".

Definition ruleSetMetricTypeNumeric := "numeric".
Definition ruleSetMetricTypeText := "text".

(** Config blocks of one [if] element, as read from the attribute map;
    a string attribute that is not found reads as "". *)
Record then_attrs := mkThen { t_after : option string; t_severity : option Z }.

Record over_attrs := mkOver { o_last : string; o_atleast : string; o_using : string }.

Record value_attrs := mkValue {
  v_absent : string; v_changed : string; v_contains : string; v_match : string;
  v_not_match : string; v_min_value : string; v_max_value : string;
  v_eq_value : string; v_neq_value : string; v_not_contain : string;
  v_over : option (list over_attrs)
}.

Record if_attrs := mkIf { i_then : option (list then_attrs); i_value : option (list value_attrs) }.

(** The rule-set level attributes [ParseConfig] reads. *)
Record rule_set_config := mkRuleSetConfig {
  c_metric_name : string;
  c_metric_pattern : string;
  c_metric_type : string;
  c_if : list if_attrs
}.

Definition with_wait (r : rule) (w : N) : rule :=
  mkRule (criteria r) (value r) w (severity r) (windowing_function r)
         (windowing_duration r) (windowing_min_duration r).
Definition with_severity (r : rule) (s : N) : rule :=
  mkRule (criteria r) (value r) (wait r) s (windowing_function r)
         (windowing_duration r) (windowing_min_duration r).
Definition with_criteria (r : rule) (c : string) (v : rule_value) : rule :=
  mkRule c v (wait r) (severity r) (windowing_function r)
         (windowing_duration r) (windowing_min_duration r).
Definition with_window (r : rule) (f : string) (d m : N) : rule :=
  mkRule (criteria r) (value r) (wait r) (severity r) (Some f) d m.

(** [uint(x)] for a Go [int]. *)
Definition go_uint (i : Z) : N := Z.to_N (i mod 2 ^ 64).

(** [then.after]: [d, err := time.ParseDuration(v + "s")], then
    [rule.Wait = uint(d.Minutes())].  For the non-negative whole second
    counts the schema admits, [d.Minutes()] is [float64(d / Minute) +
    float64(d % Minute) / 6e10], whose fractional part stays below
    59/60 + 2^-40, so the truncating conversion yields [d / Minute]. *)
Definition parse_after (s : string) (w : N) : result N :=
  if String.eqb s "" then Ok w
  else match go_parse_duration_secs s with
       | Some ns => Ok (Z.to_N (ns / 60000000000))
       | None => Err "unable to parse after duration"
       end.

(** One [then] element (contact-group notification lists are written to
    [rs.ContactGroups] only and are left out). *)
Definition parse_then (r : rule) (t : then_attrs) : result rule :=
  match (match t_after t with Some s => parse_after s (wait r) | None => Ok (wait r) end) with
  | Err e => Err e
  | Ok w =>
      let r := with_wait r w in
      Ok (match t_severity t with Some i => with_severity r (go_uint i) | None => r end)
  end.

Fixpoint parse_thens (r : rule) (ts : list then_attrs) : result rule :=
  match ts with
  | [] => Ok r
  | t :: ts' => match parse_then r t with Ok r' => parse_thens r' ts' | Err e => Err e end
  end.

(** [d, _ := time.ParseDuration(s + "s")]; [rule.Value = d.Seconds()]. *)
Definition absent_seconds (s : string) : Q :=
  match go_parse_duration_secs s with
  | Some ns => Qmake ns 1000000000
  | None => 0%Q
  end.

Definition ne (s : string) : bool := negb (String.eqb s "").

(** The [switch rs.MetricType] on the criteria attributes. *)
Definition parse_criteria (mt : string) (r : rule) (va : value_attrs) : result rule :=
  if String.eqb mt ruleSetMetricTypeNumeric then
    Ok (if ne (v_absent va) then with_criteria r apiRuleSetAbsent (VSeconds (absent_seconds (v_absent va)))
        else if ne (v_changed va) then
          (if String.eqb (v_changed va) "true" then with_criteria r apiRuleSetChanged (value r) else r)
        else if ne (v_min_value va) then with_criteria r apiRuleSetMinValue (VStr (v_min_value va))
        else if ne (v_max_value va) then with_criteria r apiRuleSetMaxValue (VStr (v_max_value va))
        else if ne (v_eq_value va) then with_criteria r apiRuleSetEqValue (VStr (v_eq_value va))
        else if ne (v_neq_value va) then with_criteria r apiRuleSetNotEqValue (VStr (v_neq_value va))
        else r)
  else if String.eqb mt ruleSetMetricTypeText then
    Ok (if ne (v_absent va) then with_criteria r apiRuleSetAbsent (VSeconds (absent_seconds (v_absent va)))
        else if ne (v_changed va) then
          (if String.eqb (v_changed va) "true" then with_criteria r apiRuleSetChanged (value r) else r)
        else if ne (v_contains va) then with_criteria r apiRuleSetContains (VStr (v_contains va))
        else if ne (v_match va) then with_criteria r apiRuleSetMatch (VStr (v_match va))
        else if ne (v_not_match va) then with_criteria r apiRuleSetNotMatch (VStr (v_not_match va))
        else if ne (v_not_contain va) then with_criteria r apiRuleSetNotContains (VStr (v_not_contain va))
        else r)
  else Err "PROVIDER BUG: unsupported rule set metric type".

(** One [over] element: [strconv.Atoi] on [last] and [atleast]. *)
Definition parse_over (r : rule) (o : over_attrs) : result rule :=
  let atoi s := if String.eqb s "" then Some 0%N
                else option_map go_uint (go_parse_int64 s) in
  match atoi (o_last o), atoi (o_atleast o) with
  | None, _ => Err "unable to parse last duration"
  | _, None => Err "unable to parse atleast duration"
  | Some wd, Some wmd =>
      if andb (ne (o_using o)) (N.ltb 0 wd) then
        Ok (with_window r (o_using o) wd
              (if N.ltb 0 wmd then wmd else windowing_min_duration r))
      else Ok r
  end.

Fixpoint parse_overs (r : rule) (os : list over_attrs) : result rule :=
  match os with
  | [] => Ok r
  | o :: os' => match parse_over r o with Ok r' => parse_overs r' os' | Err e => Err e end
  end.

Definition empty_rule : rule := mkRule "" VNil 0 0 None 0 0.

(** One [if] element: the rule it builds. *)
Definition parse_if (mt : string) (ia : if_attrs) : result rule :=
  let r0 := match i_then ia with Some ts => parse_thens empty_rule ts | None => Ok empty_rule end in
  match r0 with
  | Err e => Err e
  | Ok r =>
      match i_value ia with
      | None => Ok r
      | Some [] => Err "panic: index out of range [0] with length 0"
      | Some (va :: _) =>
          match parse_criteria mt r va with
          | Err e => Err e
          | Ok r => match v_over va with Some os => parse_overs r os | None => Ok r end
          end
      end
  end.

(** The errors of [circonusRuleSet.Validate], with the rule index. *)
Inductive rs_error :=
| RSNameAndPattern
| RSNoNameOrPattern
| RSEmptyCriteria (i : nat)
| RSWindowMinExceedsWindow (i : nat)
| RSTextCriteriaOnNumeric (i : nat)
| RSNumericCriteriaOnText (i : nat).

Definition text_criteria (c : string) : bool :=
  existsb (String.eqb c) [apiRuleSetMatch; apiRuleSetNotMatch; apiRuleSetContains; apiRuleSetNotContains].
Definition numeric_criteria (c : string) : bool :=
  existsb (String.eqb c) [apiRuleSetMaxValue; apiRuleSetMinValue; apiRuleSetEqValue; apiRuleSetNotEqValue].

Fixpoint validate_rules (mt : string) (i : nat) (rules : list rule) : option rs_error :=
  match rules with
  | [] => None
  | r :: rs =>
      if String.eqb (criteria r) "" then Some (RSEmptyCriteria i)
      else if N.ltb (windowing_duration r) (windowing_min_duration r) then
        Some (RSWindowMinExceedsWindow i)
      else if andb (text_criteria (criteria r)) (negb (String.eqb mt "text")) then
        Some (RSTextCriteriaOnNumeric i)
      else if andb (numeric_criteria (criteria r)) (negb (String.eqb mt "numeric")) then
        Some (RSNumericCriteriaOnText i)
      else validate_rules mt (S i) rs
  end.

(** [func (rs *circonusRuleSet) Validate() error]. *)
Definition Validate (rs : rule_set) : option rs_error :=
  if andb (ne (rs_metric_name rs)) (ne (rs_metric_pattern rs)) then Some RSNameAndPattern
  else if andb (negb (ne (rs_metric_name rs))) (negb (ne (rs_metric_pattern rs))) then
    Some RSNoNameOrPattern
  else validate_rules (rs_metric_type rs) 0 (rs_rules rs).

(** [func (rs *circonusRuleSet) ParseConfig(d)]: rules whose criteria
    stayed empty are not appended; the result is then validated. *)
Fixpoint parse_ifs (mt : string) (ifs : list if_attrs) : result (list rule) :=
  match ifs with
  | [] => Ok []
  | ia :: ifs' =>
      match parse_if mt ia with
      | Err e => Err e
      | Ok r =>
          match parse_ifs mt ifs' with
          | Err e => Err e
          | Ok rs => Ok (if String.eqb (criteria r) "" then rs else r :: rs)
          end
      end
  end.

Definition ParseConfig (cfg : rule_set_config) : result rule_set + rs_error :=
  match parse_ifs (c_metric_type cfg) (c_if cfg) with
  | Err e => inl (Err e)
  | Ok rules =>
      let rs := mkRuleSet (c_metric_name cfg) (c_metric_pattern cfg) (c_metric_type cfg) rules in
      match Validate rs with
      | Some e => inr e
      | None => inl (Ok rs)
      end
  end.

(** [ruleSetRead]: [thenAttrs["after"] = fmt.Sprintf("%d", 60*rule.Wait)]. *)
Definition read_after (r : rule) : string := fmt_d (60 * wait r).

End RuleSet.

(** ** Check bundles: status, [Fixup] and metric filters (check.go) *)
Module CheckMore.
Import Check.

Definition checkStatusActive := "active".
Definition checkStatusDisabled := "disabled".

(** [checkAPIStatusToBool]: an unsupported status is logged and reads as
    [false] (the zero value of [active]). *)
Definition checkAPIStatusToBool (s : string) : bool :=
  if String.eqb s checkStatusActive then true
  else if String.eqb s checkStatusDisabled then false
  else false.

(** [checkActiveToAPIStatus]. *)
Definition checkActiveToAPIStatus (active : bool) : string :=
  if active then checkStatusActive else checkStatusDisabled.

(** [config.Granularity] of go-apiclient/config. *)
Definition config_Granularity := "granularity".

Definition with_config (c : check_bundle) (cfg : gomap) : check_bundle :=
  mkCheckBundle (cb_type c) (cb_target c) (cb_period c) (cb_timeout c)
                (cb_metrics c) (cb_metric_filters c) cfg.

(** [func (c *circonusCheck) Fixup() error] (it always returns [nil]). *)
Definition Fixup (c : check_bundle) : check_bundle :=
  if String.eqb (cb_type c) apiCheckTypeCloudWatchAttr then
    if N.eqb (cb_period c) 60 then with_config c (map_set config_Granularity "1" (cb_config c))
    else if N.eqb (cb_period c) 300 then with_config c (map_set config_Granularity "5" (cb_config c))
    else c
  else c.

(** The tail of [circonusCheck.ParseConfig]: [Fixup], then [Validate]. *)
Definition fixup_validate (c : check_bundle) : result check_bundle :=
  let c := Fixup c in
  match Validate c with
  | Some _ => Err "validation failed"
  | None => Ok c
  end.

(** One element of the [metric_filter] list as read from the config:
    [Some v] when the key is found. *)
Record metric_filter_attrs := mkMFAttrs {
  mf_type : option string;
  mf_regex : option string;
  mf_tag_query : option string;
  mf_comment : option string
}.

(** The [metric_filter] step of [circonusCheck.ParseConfig]: the
    [[]string] appended to [c.MetricFilters]. *)
Definition parse_metric_filter (a : metric_filter_attrs) : list string :=
  let m := match mf_type a with Some v => [v] | None => [] end in
  let m := (m ++ match mf_regex a with Some v => [v] | None => [] end)%list in
  let m := (m ++ match mf_tag_query a with Some v => ["tags"; v] | None => [] end)%list in
  (m ++ match mf_comment a with Some v => [v] | None => [] end)%list.

(** The state map [checkRead] builds for one metric filter. *)
Record metric_filter_state := mkMFState {
  s_type : string;
  s_regex : string;
  s_tag_query : string;
  s_comment : string
}.

(** [m[i]]: a Go index expression panics past the end of the slice. *)
Definition index (m : list string) (i : nat) : result string :=
  match nth_error m i with
  | Some v => Ok v
  | None => Err "panic: index out of range"
  end.

(** The metric-filter loop body of [checkRead], with its indexing order:
    [m[0]], [m[1]], [m[2]], then [m[3]] and [m[4]] or nothing more. *)
Definition read_metric_filter (m : list string) : result metric_filter_state :=
  match index m 0, index m 1 with
  | Ok t, Ok r =>
      match index m 2 with
      | Ok x =>
          if String.eqb x "tags" then
            match index m 3 with
            | Ok q => match index m 4 with
                      | Ok c => Ok (mkMFState t r q c)
                      | Err e => Err e
                      end
            | Err e => Err e
            end
          else Ok (mkMFState t r "" x)
      | Err e => Err e
      end
  | Err e, _ => Err e
  | _, Err e => Err e
  end.

(** The state written by [checkRead], read back by [ParseConfig]: Terraform
    hands over all four keys of a [metric_filter] element. *)
Definition metric_filter_state_to_api (s : metric_filter_state) : list string :=
  parse_metric_filter (mkMFAttrs (Some (s_type s)) (Some (s_regex s))
                                 (Some (s_tag_query s)) (Some (s_comment s))).

(** The [checkIDsByCollector] loop of [checkRead]: for the [i]-th broker
    [b], [checkIDsByCollector[b] = c.Checks[i]]; indexing past the end of
    [c.Checks] panics. *)
Fixpoint check_ids_by_collector_from (i : nat) (brokers checks : list string) (m : gomap)
  : result gomap :=
  match brokers with
  | [] => Ok m
  | b :: bs =>
      match nth_error checks i with
      | Some c => check_ids_by_collector_from (S i) bs checks (map_set b c m)
      | None => Err "panic: index out of range"
      end
  end.

Definition check_ids_by_collector (brokers checks : list string) : result gomap :=
  check_ids_by_collector_from 0 brokers checks [].

End CheckMore.

(** ** HTTP check hash: [hashCheckHTTP] (resource_circonus_check_http.go) *)
Module HTTPHash.
Import HTTP.

Fixpoint smap_get (k : string) (m : smap) : option sval :=
  match m with
  | [] => None
  | (k', v) :: m' => if String.eqb k k' then Some v else smap_get k m'
  end.

(** Bytes of [unicode.IsSpace] runes: the ASCII ones, then the UTF-8
    encodings of U+0085, U+00A0, U+1680, U+2000..U+200A, U+2028, U+2029,
    U+202F, U+205F and U+3000. *)
Definition space1 (a : ascii) : bool :=
  let n := nat_of_ascii a in
  orb (andb (Nat.leb 9 n) (Nat.leb n 13)) (Nat.eqb n 32).
Definition space2 (a b : ascii) : bool :=
  andb (Nat.eqb (nat_of_ascii a) 194)
       (orb (Nat.eqb (nat_of_ascii b) 133) (Nat.eqb (nat_of_ascii b) 160)).
Definition space3 (a b c : ascii) : bool :=
  let x := nat_of_ascii a in let y := nat_of_ascii b in let z := nat_of_ascii c in
  orb (andb (Nat.eqb x 225) (andb (Nat.eqb y 154) (Nat.eqb z 128)))
  (orb (andb (Nat.eqb x 226) (andb (Nat.eqb y 128)
          (orb (andb (Nat.leb 128 z) (Nat.leb z 138))
               (orb (Nat.eqb z 168) (orb (Nat.eqb z 169) (Nat.eqb z 175))))))
  (orb (andb (Nat.eqb x 226) (andb (Nat.eqb y 129) (Nat.eqb z 159)))
       (andb (Nat.eqb x 227) (andb (Nat.eqb y 128) (Nat.eqb z 128))))).

(** [strings.TrimLeftFunc(s, unicode.IsSpace)] on the bytes of [s]. *)
Fixpoint trim_left (l : list ascii) : list ascii :=
  match l with
  | [] => []
  | a :: t1 =>
      if space1 a then trim_left t1
      else match t1 with
           | b :: t2 =>
               if space2 a b then trim_left t2
               else match t2 with
                    | c :: t3 => if space3 a b c then trim_left t3 else l
                    | [] => l
                    end
           | [] => l
           end
  end.

(** The same on the reversed bytes: [strings.TrimRightFunc], which decodes
    the last rune of the string each time. *)
Fixpoint trim_right_rev (l : list ascii) : list ascii :=
  match l with
  | [] => []
  | a :: t1 =>
      if space1 a then trim_right_rev t1
      else match t1 with
           | b :: t2 =>
               if space2 b a then trim_right_rev t2
               else match t2 with
                    | c :: t3 => if space3 c b a then trim_right_rev t3 else l
                    | [] => l
                    end
           | [] => l
           end
  end.

(** [strings.TrimSpace]. *)
Definition TrimSpace (s : string) : string :=
  string_of_list_ascii (rev (trim_right_rev (rev (trim_left (list_ascii_of_string s))))).

(** [fmt.Sprintf("%x", i)] for a Go [int]. *)
Fixpoint hex_digits (u : Hexadecimal.uint) : string :=
  match u with
  | Hexadecimal.Nil => ""
  | Hexadecimal.D0 u => String "0" (hex_digits u)
  | Hexadecimal.D1 u => String "1" (hex_digits u)
  | Hexadecimal.D2 u => String "2" (hex_digits u)
  | Hexadecimal.D3 u => String "3" (hex_digits u)
  | Hexadecimal.D4 u => String "4" (hex_digits u)
  | Hexadecimal.D5 u => String "5" (hex_digits u)
  | Hexadecimal.D6 u => String "6" (hex_digits u)
  | Hexadecimal.D7 u => String "7" (hex_digits u)
  | Hexadecimal.D8 u => String "8" (hex_digits u)
  | Hexadecimal.D9 u => String "9" (hex_digits u)
  | Hexadecimal.Da u => String "a" (hex_digits u)
  | Hexadecimal.Db u => String "b" (hex_digits u)
  | Hexadecimal.Dc u => String "c" (hex_digits u)
  | Hexadecimal.Dd u => String "d" (hex_digits u)
  | Hexadecimal.De u => String "e" (hex_digits u)
  | Hexadecimal.Df u => String "f" (hex_digits u)
  end.

Definition fmt_x (i : Z) : string :=
  if Z.ltb i 0 then "-" ++ hex_digits (N.to_hex_uint (Z.to_N (- i)))
  else hex_digits (N.to_hex_uint (Z.to_N i)).

(** [crc32.ChecksumIEEE]: reflected polynomial 0xEDB88320, bit by bit. *)
Fixpoint crc_bits (n : nat) (c : N) : N :=
  match n with
  | O => c
  | S n' => crc_bits n' (if N.odd c then N.lxor (N.shiftr c 1) 3988292384%N else N.shiftr c 1)
  end.

Definition crc32 (s : string) : N :=
  N.lxor (fold_left (fun c a => crc_bits 8 (N.lxor c (N_of_ascii a)))
                    (list_ascii_of_string s) 4294967295%N) 4294967295%N.

(** [hashcode.String]: [int(crc32)], non-negative on a 64-bit [int]. *)
Definition hashcode_String (s : string) : Z := Z.of_N (crc32 s).

(** [sort.Strings]: insertion sort on the byte order of [String.compare]. *)
Fixpoint insert_sorted (x : string) (l : list string) : list string :=
  match l with
  | [] => [x]
  | y :: l' => if String.leb x y then x :: l else y :: insert_sorted x l'
  end.

Definition sort_strings (l : list string) : list string :=
  fold_right insert_sorted [] l.

(** The closures [writeString] and [writeInt]; a value of the wrong
    dynamic type makes the type assertion panic. *)
Definition write_string (m : smap) (attr : string) (b : result string) : result string :=
  match b with
  | Err e => Err e
  | Ok b =>
      match smap_get attr m with
      | Some (SStr v) => if String.eqb v "" then Ok b else Ok (b ++ TrimSpace v)
      | Some _ => Err "panic: interface conversion"
      | None => Ok b
      end
  end.

Definition write_int (m : smap) (attr : string) (b : result string) : result string :=
  match b with
  | Err e => Err e
  | Ok b =>
      match smap_get attr m with
      | Some (SInt i) => Ok (b ++ fmt_x i)
      | Some _ => Err "panic: interface conversion"
      | None => Ok b
      end
  end.

Definition write_headers (m : smap) (b : result string) : result string :=
  match b with
  | Err e => Err e
  | Ok b =>
      match smap_get "headers" m with
      | Some (SMap hm) =>
          Ok (fold_left (fun b k => b ++ k ++ map_get_zero k hm) (sort_strings (map fst hm)) b)
      | Some _ => Err "panic: interface conversion"
      | None => Ok b
      end
  end.

(** The buffer [b] of [hashCheckHTTP], written in the order of the code. *)
Definition hash_buffer (m : smap) : result string :=
  let b := Ok "" in
  let b := write_string m "auth_method" b in
  let b := write_string m "auth_password" b in
  let b := write_string m "auth_user" b in
  let b := write_string m "body_regexp" b in
  let b := write_string m "ca_chain" b in
  let b := write_string m "certificate_file" b in
  let b := write_string m "ciphers" b in
  let b := write_string m "code" b in
  let b := write_string m "extract" b in
  let b := write_headers m b in
  let b := write_string m "key_file" b in
  let b := write_string m "method" b in
  let b := write_string m "payload" b in
  let b := write_int m "read_limit" b in
  let b := write_string m "url" b in
  let b := write_string m "version" b in
  write_string m "redirects" b.

(** [hashCheckHTTP]. *)
Definition hashCheckHTTP (m : smap) : result Z :=
  match hash_buffer m with
  | Ok s => Ok (hashcode_String s)
  | Err e => Err e
  end.

End HTTPHash.

(** ** Graph datapoints: display attributes (resource_circonus_graph.go) *)
Module GraphMore.

(** [strconv.ParseUint(s, 10, 64)]: the value and whether an error was
    returned.  A byte that is not a decimal digit is a syntax error with
    value 0; passing [cutoff] or [maxUint64] is a range error with value
    [maxUint64]; both are checked digit by digit, in this order. *)
Definition maxUint64 : N := 2 ^ 64 - 1.
Definition cutoff : N := maxUint64 / 10 + 1.

Definition is_digit (c : ascii) : bool :=
  andb (Nat.leb 48 (nat_of_ascii c)) (Nat.leb (nat_of_ascii c) 57).

Fixpoint parse_uint_loop (s : string) (n : N) : N * bool :=
  match s with
  | EmptyString => (n, false)
  | String c t =>
      if negb (is_digit c) then (0%N, true)
      else if N.leb cutoff n then (maxUint64, true)
      else
        let n1 := (n * 10 + (N_of_ascii c - 48))%N in
        if N.ltb maxUint64 n1 then (maxUint64, true)
        else parse_uint_loop t n1
  end.

Definition go_parse_uint64 (s : string) : N * bool :=
  match s with
  | EmptyString => (0%N, true)
  | _ => parse_uint_loop s 0
  end.

(** [api.GraphDatapoint.Derive]: an [interface{}] holding a [bool], a
    [string], or a value of another dynamic type. *)
Inductive derive :=
| DBool (b : bool)
| DStr (s : string)
| DOther.

(** The display fields of [api.GraphDatapoint]: [Hidden], [Alpha]
    ([*string]), [Derive] and [Stack] ([*uint]). *)
Record dp_display := mkDpDisplay {
  d_hidden : bool;
  d_alpha : option string;
  d_derive : derive;
  d_stack : option N
}.

(** The matching attributes of a [metric] element: [Some v] when the key
    is found (a key set to [nil] by [graphRead] reads as not found). *)
Record dp_display_attrs := mkDpDisplayAttrs {
  a_active : option bool;
  a_alpha : option string;
  a_function : option string;
  a_stack : option string
}.

(** [circonusGraph.ParseConfig] on these attributes, from
    [api.GraphDatapoint{}]; the error of [ParseUint] is discarded. *)
Definition parse_display (a : dp_display_attrs) : dp_display :=
  let hidden := match a_active a with Some v => negb v | None => false end in
  let alpha := match a_alpha a with Some f => Some f | None => None end in
  let alpha := match alpha with
               | None => Some "0"
               | Some f => if String.eqb f "" then Some "0" else Some f
               end in
  let der := match a_function a with
             | Some s => if String.eqb s "" then DBool false else DStr s
             | None => DBool false
             end in
  let stack := match a_stack a with
               | Some s => if String.eqb s "" then None else Some (fst (go_parse_uint64 s))
               | None => None
               end in
  mkDpDisplay hidden alpha der stack.

(** [graphRead] on these fields: [alpha] is [nil] for a [nil] or "0"
    alpha, a [bool] derive writes no [function], [stack] is ["%d"]. *)
Definition read_display (d : dp_display) : result dp_display_attrs :=
  let alpha := match d_alpha d with
               | Some a => if String.eqb a "0" then None else Some a
               | None => None
               end in
  match d_derive d with
  | DOther => Err "PROVIDER BUG: Unsupported type for derive"
  | der =>
      let fn := match der with DStr s => Some s | _ => None end in
      Ok (mkDpDisplayAttrs (Some (negb (d_hidden d))) alpha fn (option_map fmt_d (d_stack d)))
  end.

(** A [graphRead] followed by [ParseConfig] of what it wrote. *)
Definition display_roundtrip (d : dp_display) : result dp_display :=
  match read_display d with
  | Ok a => Ok (parse_display a)
  | Err e => Err e
  end.

End GraphMore.

(** ** Rule sets: [ruleSetRead], contact groups, update and delete *)
Module RuleSetMore.
Import RuleSet.

(** Attribute names of a [value] block ([ruleSet*Attr]). *)
Definition ruleSetAbsentAttr := "absent".
Definition ruleSetChangedAttr := "changed".
Definition ruleSetContainsAttr := "contains".
Definition ruleSetMatchAttr := "match".
Definition ruleSetMaxValueAttr := "max_value".
Definition ruleSetMinValueAttr := "min_value".
Definition ruleSetEqValueAttr := "eq_value".
Definition ruleSetNotEqValueAttr := "neq_value".
Definition ruleSetNotContainAttr := "not_contain".
Definition ruleSetNotMatchAttr := "not_match".

(** [fmt.Sprintf("%fs", v)] rounds [|v|] to six decimals, ties to even
    (as [strconv] does for an exact half); this is that rounding of a
    non-negative [num / den] to a count of millionths. *)
Definition round_micros (num : Z) (den : positive) : Z :=
  let x := (num * 1000000)%Z in
  let n := (x / Zpos den)%Z in
  let r := (x mod Zpos den)%Z in
  match Z.compare (2 * r) (Zpos den) with
  | Lt => n
  | Gt => (n + 1)%Z
  | Eq => if Z.even n then n else (n + 1)%Z
  end.

(** The [float64] branch of the [absent] case:
    [d, _ := time.ParseDuration(fmt.Sprintf("%fs", v))] (0 on overflow;
    a six-digit fraction is exact in nanoseconds), then
    [fmt.Sprintf("%d", int(d.Seconds()))], which truncates toward zero
    ([d.Seconds()] is within 10^-6 of no integer it does not reach). *)
Definition absent_float_to_state (v : Q) : string :=
  let neg := Z.ltb (Qnum v) 0 in
  let ns := (round_micros (Z.abs (Qnum v)) (Qden v) * 1000)%Z in
  let d := if neg then (if Z.leb ns (2 ^ 63) then (- ns)%Z else 0%Z)
           else (if Z.leb ns (2 ^ 63 - 1) then ns else 0%Z) in
  HTTP.fmt_int (Z.quot d 1000000000).

(** The [switch rule.Criteria] of [ruleSetRead]: the [value] attributes of
    one rule, or the "Unsupported criteria" diagnostic.  Values other than
    [absent] and [changed] are stored as [rule.Value] itself. *)
Definition read_value (r : rule) : result (list (string * rule_value)) :=
  let c := criteria r in
  if String.eqb c apiRuleSetAbsent then
    match value r with
    | VStr s => Ok [(ruleSetAbsentAttr, VStr s)]
    | VSeconds q => Ok [(ruleSetAbsentAttr, VStr (absent_float_to_state q))]
    | VNil => Ok [(ruleSetAbsentAttr, VStr "<nil>")]
    end
  else if String.eqb c apiRuleSetChanged then Ok [(ruleSetChangedAttr, VStr "true")]
  else if String.eqb c apiRuleSetContains then Ok [(ruleSetContainsAttr, value r)]
  else if String.eqb c apiRuleSetMatch then Ok [(ruleSetMatchAttr, value r)]
  else if String.eqb c apiRuleSetMaxValue then Ok [(ruleSetMaxValueAttr, value r)]
  else if String.eqb c apiRuleSetMinValue then Ok [(ruleSetMinValueAttr, value r)]
  else if String.eqb c apiRuleSetEqValue then Ok [(ruleSetEqValueAttr, value r)]
  else if String.eqb c apiRuleSetNotEqValue then Ok [(ruleSetNotEqValueAttr, value r)]
  else if String.eqb c apiRuleSetNotContains then Ok [(ruleSetNotContainAttr, value r)]
  else if String.eqb c apiRuleSetNotMatch then Ok [(ruleSetNotMatchAttr, value r)]
  else Err "Unsupported criteria".

(** The [over] block [ruleSetRead] writes: only when a windowing function
    is set. *)
Definition read_over (r : rule) : option (list over_attrs) :=
  match windowing_function r with
  | Some f => Some [mkOver (fmt_d (windowing_duration r)) (fmt_d (windowing_min_duration r)) f]
  | None => None
  end.

(** [rs.ContactGroups], a [map[uint8][]string]. *)
Definition contact_groups := list (N * list string).

Fixpoint cg_get (k : N) (m : contact_groups) : option (list string) :=
  match m with
  | [] => None
  | (k', v) :: m' => if N.eqb k k' then Some v else cg_get k m'
  end.

Fixpoint cg_set (k : N) (v : list string) (m : contact_groups) : contact_groups :=
  match m with
  | [] => [(k, v)]
  | (k', v') :: m' => if N.eqb k k' then (k', v) :: m' else (k', v') :: cg_set k v m'
  end.

Definition cg_get_zero (k : N) (m : contact_groups) : list string :=
  match cg_get k m with Some l => l | None => [] end.

(** [newRuleSet]: an empty list for each of the [config.NumSeverityLevels]
    (5) severities 1..5. *)
Definition new_contact_groups : contact_groups :=
  [(1%N, []); (2%N, []); (3%N, []); (4%N, []); (5%N, [])].

(** The [notify] loop of [ParseConfig]: [sev := uint8(rule.Severity)]; a
    contact group is appended unless already listed under [sev]. *)
Definition add_notify (cgs : contact_groups) (severity : N) (notify : list string) : contact_groups :=
  let sev := (severity mod 256)%N in
  fold_left (fun cgs cid =>
               let found := match cg_get sev cgs with
                            | Some l => existsb (String.eqb cid) l
                            | None => false
                            end in
               if found then cgs else cg_set sev (cg_get_zero sev cgs ++ [cid])%list cgs)
            notify cgs.

(** The [notify] attribute [ruleSetRead] writes for a rule: only when
    [int(rule.Severity) > 0]; the sorted groups of [uint8(rule.Severity)],
    or an empty list. *)
Definition read_notify (cgs : contact_groups) (severity : N) : option (list string) :=
  if andb (N.ltb 0 severity) (N.ltb severity (2 ^ 63)) then
    Some (match cg_get (severity mod 256) cgs with
          | Some l => HTTPHash.sort_strings l
          | None => []
          end)
  else None.

End RuleSetMore.

(** ** Sample inputs *)

(** A bundle of type [t] with one metric, no filters, and the given period
    and timeout (in seconds, as [ParseConfig] stores them). *)
Definition sample_bundle (t : string) (period : N) (timeout : Q) : Check.check_bundle :=
  Check.mkCheckBundle t "example.com" period timeout
    [Check.mkMetric "duration" "numeric" "active"] [] [].

(** A rule set on metric [cpu] of type [mt] with one [if] block whose
    value block is [va]. *)
Definition one_rule_config (mt : string) (va : RuleSet.value_attrs) : RuleSet.rule_set_config :=
  RuleSet.mkRuleSetConfig "cpu" "" mt [RuleSet.mkIf (Some [RuleSet.mkThen (Some "0") (Some 1%Z)]) (Some [va])].

Definition b2n (b : bool) : nat := if b then 1 else 0.

(** An HTTP block as Terraform hands it over, with the given URL. *)
Definition sample_http_block (u : string) : HTTP.http_block :=
  (* auth_method auth_password auth_user body_regexp ca_chain
     certificate_file ciphers code extract headers key_file method payload
     read_limit url version redirects *)
  HTTP.mkHttpBlock (Some "") (Some "") (Some "") (Some "") (Some "")
    (Some "") (Some "") (Some "^200$") (Some "") [] (Some "") (Some "GET") (Some "")
    (Some 0%Z) (Some u) (Some "1.1") (Some "0").

(** The value of a string of decimal digits, accumulated from [acc]. *)
Definition digits_value_from (l : list ascii) (acc : N) : N :=
  fold_left (fun n c => (n * 10 + (N_of_ascii c - 48))%N) l acc.

Definition digits_value (s : string) : N := digits_value_from (list_ascii_of_string s) 0.

(** The Horner value of a [Decimal.uint], accumulated from [acc]. *)
Fixpoint uint_val (u : Decimal.uint) (acc : N) : N :=
  match u with
  | Decimal.Nil => acc
  | Decimal.D0 u => uint_val u (acc * 10)
  | Decimal.D1 u => uint_val u (acc * 10 + 1)
  | Decimal.D2 u => uint_val u (acc * 10 + 2)
  | Decimal.D3 u => uint_val u (acc * 10 + 3)
  | Decimal.D4 u => uint_val u (acc * 10 + 4)
  | Decimal.D5 u => uint_val u (acc * 10 + 5)
  | Decimal.D6 u => uint_val u (acc * 10 + 6)
  | Decimal.D7 u => uint_val u (acc * 10 + 7)
  | Decimal.D8 u => uint_val u (acc * 10 + 8)
  | Decimal.D9 u => uint_val u (acc * 10 + 9)
  end.

(** A [value] block of a rule set [if] with the attribute [a] set to [s]
    and every other attribute not set (read as ""). *)
Definition value_with (a s : string) : RuleSet.value_attrs :=
  let v x := if String.eqb a x then s else "" in
  RuleSet.mkValue (v "absent") (v "changed") (v "contains") (v "match") (v "not_match")
    (v "min_value") (v "max_value") (v "eq_value") (v "neq_value") (v "not_contain") None.

(** The criteria a rule of metric type [mt] can be given by [ParseConfig]. *)
Definition criteria_for (mt : string) : list string :=
  if String.eqb mt RuleSet.ruleSetMetricTypeNumeric then
    [RuleSet.apiRuleSetAbsent; RuleSet.apiRuleSetChanged; RuleSet.apiRuleSetMinValue; RuleSet.apiRuleSetMaxValue;
     RuleSet.apiRuleSetEqValue; RuleSet.apiRuleSetNotEqValue]
  else if String.eqb mt RuleSet.ruleSetMetricTypeText then
    [RuleSet.apiRuleSetAbsent; RuleSet.apiRuleSetChanged; RuleSet.apiRuleSetContains; RuleSet.apiRuleSetMatch;
     RuleSet.apiRuleSetNotMatch; RuleSet.apiRuleSetNotContains]
  else [].

(** The attributes [hashCheckHTTP] writes with [writeString]. *)
Definition hash_string_attrs : list string :=
  ["auth_method"; "auth_password"; "auth_user"; "body_regexp"; "ca_chain";
   "certificate_file"; "ciphers"; "code"; "extract"; "key_file"; "method";
   "payload"; "url"; "version"; "redirects"].

(** What [writeString] appends for a value found (or not) in the map:
    [None] when the type assertion panics. *)
Definition string_written (o : option HTTP.sval) : option string :=
  match o with
  | None => Some ""
  | Some (HTTP.SStr v) => Some (if String.eqb v "" then "" else HTTPHash.TrimSpace v)
  | Some _ => None
  end.

(* ================================================================== *)
(** ** Properties *)

Import Check.

Lemma float32_of_uint_exact (n : N) : (n < 2 ^ 24)%N -> float32_of_uint n = n.
Proof.
  intros H. unfold float32_of_uint. apply N.ltb_lt in H. now rewrite H.
Qed.

(** C2: [Validate] rejects a bundle whose [Metrics] and [MetricFilters] are
    both non-empty, rejects one where both are empty, and raises neither of
    these two errors when exactly one of them is non-empty. *)
Theorem validate_metrics_xor_filters (c : check_bundle) :
  (Validate c = Some ErrMetricsAndFilters <->
     cb_metrics c <> [] /\ cb_metric_filters c <> []) /\
  (Validate c = Some ErrNoMetrics <->
     cb_metrics c = [] /\ cb_metric_filters c = []).
Proof.
  unfold Validate.
  destruct (cb_metrics c) as [|m ms], (cb_metric_filters c) as [|f fs]; simpl;
    (split; split; [intros H | intros H | intros H | intros H]);
    try discriminate; try (destruct H; congruence); auto;
    repeat match goal with
           | |- context [if ?b then _ else _] => destruct b
           | H : context [if ?b then _ else _] |- _ => destruct b
           | H : context [match ?x with _ => _ end] |- _ => destruct x
           end; try discriminate; try split; congruence.
Qed.

(** The timeout check of [Validate] compares against [float32(Period)]:
    when exactly one of [Metrics] and [MetricFilters] is non-empty,
    [Validate] fails with the timeout error exactly when the timeout
    exceeds the period rounded to float32. *)
Lemma validate_timeout_float32 (c : check_bundle) :
  (Validate c = Some ErrTimeoutExceedsPeriod <->
     (nonempty (cb_metrics c) = true <-> nonempty (cb_metric_filters c) = false) /\
     (inject_Z (Z.of_N (float32_of_uint (cb_period c))) < cb_timeout c)%Q) /\
  Validate (sample_bundle "http" 60 (90 # 1)) = Some ErrTimeoutExceedsPeriod /\
  Validate (sample_bundle "http" 60 (30 # 1)) = None.
Proof.
  split; [| split; vm_compute; reflexivity].
  unfold Validate.
  destruct (nonempty (cb_metrics c)), (nonempty (cb_metric_filters c)); simpl.
  - split; [discriminate | intros [[H _] _]; discriminate (H eq_refl)].
  - destruct (Qle_bool _ _) eqn:Hq; simpl.
    + split.
      * repeat match goal with |- context [if ?b then _ else _] => destruct b end;
          try discriminate;
          match goal with |- context [match ?x with _ => _ end] => destruct x end;
          try discriminate;
          match goal with |- context [if ?b then _ else _] => destruct b end;
          discriminate.
      * intros [_ Hlt]. apply Qle_bool_iff in Hq. apply Qlt_not_le in Hlt.
        contradiction.
    + split; [intros _; split; [tauto|] | reflexivity].
      apply Qnot_le_lt. intros Hle. apply Qle_bool_iff in Hle. congruence.
  - destruct (Qle_bool _ _) eqn:Hq; simpl.
    + split.
      * repeat match goal with |- context [if ?b then _ else _] => destruct b end;
          try discriminate;
          match goal with |- context [match ?x with _ => _ end] => destruct x end;
          try discriminate;
          match goal with |- context [if ?b then _ else _] => destruct b end;
          discriminate.
      * intros [_ Hlt]. apply Qle_bool_iff in Hq. apply Qlt_not_le in Hlt.
        contradiction.
    + split; [intros _; split; [split; discriminate|] | reflexivity].
      apply Qnot_le_lt. intros Hle. apply Qle_bool_iff in Hle. congruence.
  - split; [discriminate | intros [[_ H] _]; discriminate (H eq_refl)].
Qed.

(** C3: for every period [ParseConfig] can hand to [Validate] (the schema
    caps [period] with [validateDurationMax]; any period below 2^24 s, where
    [float32(Period)] is the period itself), when exactly one of [Metrics]
    and [MetricFilters] is non-empty, [Validate] fails with the timeout
    error exactly when the timeout is greater than the period; period 60 s
    with timeout 90 s fails, with 30 s passes. *)
Theorem validate_timeout_exceeds_period (c : check_bundle) :
  (cb_period c < 2 ^ 24)%N ->
  (Validate c = Some ErrTimeoutExceedsPeriod <->
     (nonempty (cb_metrics c) = true <-> nonempty (cb_metric_filters c) = false) /\
     (inject_Z (Z.of_N (cb_period c)) < cb_timeout c)%Q) /\
  Validate (sample_bundle "http" 60 (90 # 1)) = Some ErrTimeoutExceedsPeriod /\
  Validate (sample_bundle "http" 60 (30 # 1)) = None.
Proof.
  intros Hp. pose proof (validate_timeout_float32 c) as H.
  rewrite (float32_of_uint_exact (cb_period c) Hp) in H. exact H.
Qed.

Lemma validate_timeout_exceeds_period_witness :
  (cb_period (sample_bundle "http" 60 (90 # 1)) < 2 ^ 24)%N /\
  ((Validate (sample_bundle "http" 60 (90 # 1)) = Some ErrTimeoutExceedsPeriod <->
     (nonempty (cb_metrics (sample_bundle "http" 60 (90 # 1))) = true <->
      nonempty (cb_metric_filters (sample_bundle "http" 60 (90 # 1))) = false) /\
     (inject_Z (Z.of_N (cb_period (sample_bundle "http" 60 (90 # 1))))
        < cb_timeout (sample_bundle "http" 60 (90 # 1)))%Q) /\
   Validate (sample_bundle "http" 60 (90 # 1)) = Some ErrTimeoutExceedsPeriod /\
   Validate (sample_bundle "http" 60 (30 # 1)) = None).
Proof.
  assert (H : (cb_period (sample_bundle "http" 60 (90 # 1)) < 2 ^ 24)%N) by (simpl; lia).
  split; [exact H | exact (validate_timeout_exceeds_period _ H)].
Defined.

(** *** Decimal rendering *)

Lemma to_uint_nonnil (n : N) : N.to_uint n <> Decimal.Nil.
Proof.
  intros H. pose proof (DecimalN.Unsigned.of_to n) as E. rewrite H in E.
  simpl in E. subst n. discriminate H.
Qed.

Lemma parse_fmt_d (n : N) : NilZero.uint_of_string (fmt_d n) = Some (N.to_uint n).
Proof. unfold fmt_d. apply NilZero.usu, to_uint_nonnil. Qed.

Lemma fmt_d_inj (a b : N) : fmt_d a = fmt_d b -> a = b.
Proof.
  intros H. apply DecimalN.Unsigned.to_uint_inj.
  pose proof (parse_fmt_d a) as Ha. pose proof (parse_fmt_d b) as Hb.
  rewrite H in Ha. congruence.
Qed.

Lemma fmt_d_nonempty (n : N) : String.eqb (fmt_d n) "" = false.
Proof.
  apply String.eqb_neq. intros H. pose proof (parse_fmt_d n) as E.
  rewrite H in E. discriminate E.
Qed.

Lemma duration_secs_fmt_d (n : N) :
  (n <= 9223372036)%N ->
  go_parse_duration_secs (fmt_d n) = Some (Z.of_N n * 1000000000)%Z.
Proof.
  intros Hn. unfold go_parse_duration_secs. rewrite parse_fmt_d.
  rewrite DecimalN.Unsigned.of_to.
  replace (Z.leb (Z.of_N n * 1000000000) (2 ^ 63 - 1)) with true; [reflexivity|].
  symmetry. apply Z.leb_le. lia.
Qed.

(** *** Rule sets *)

Import RuleSet.

(** C10 (counterexample): an [after] value past the int64 nanosecond
    range of [time.ParseDuration] makes [ParseConfig] fail instead of being
    truncated to minutes; and "060", a multiple of 60, is written back by
    [ruleSetRead] as "60". *)
Lemma after_minutes_counterexample :
  parse_after "9223372037" (wait empty_rule) = Err "unable to parse after duration" /\
  parse_after "060" (wait empty_rule) = Ok 1%N /\
  read_after (with_wait empty_rule 1) = "60".
Proof. repeat split; vm_compute; reflexivity. Qed.

(** C10 (amended): for a [then.after] value of [n] seconds written in
    decimal without leading zeros: when [n] is within the int64 nanosecond
    range of [time.ParseDuration] ([n <= 9223372036]), [ParseConfig] stores
    [Wait = n / 60] whole minutes, [ruleSetRead] writes back [60 * Wait]
    seconds, and the value comes back unchanged exactly when [n] is a
    multiple of 60; for larger [n] [ParseConfig] fails. *)
Theorem after_minutes_roundtrip (n : N) (r : rule) :
  ((n <= 9223372036)%N ->
   parse_after (fmt_d n) (wait r) = Ok (n / 60)%N /\
   read_after (with_wait r (n / 60)) = fmt_d (60 * (n / 60)) /\
   (read_after (with_wait r (n / 60)) = fmt_d n <-> (n mod 60 = 0)%N)) /\
  ((9223372036 < n)%N -> parse_after (fmt_d n) (wait r) = Err "unable to parse after duration").
Proof.
  split; intros Hn.
  - unfold parse_after. rewrite fmt_d_nonempty, duration_secs_fmt_d by exact Hn.
    replace ((Z.of_N n * 1000000000) / 60000000000)%Z with (Z.of_N n / 60)%Z.
    2:{ replace 60000000000%Z with (60 * 1000000000)%Z by reflexivity.
        rewrite Z.div_mul_cancel_r; lia. }
    change 60%Z with (Z.of_N 60). rewrite <- N2Z.inj_div, N2Z.id.
    unfold read_after. simpl wait.
    split; [reflexivity | split; [reflexivity |]].
    split.
    + intros H. apply fmt_d_inj in H.
      pose proof (N.div_mod n 60 ltac:(lia)) as E. lia.
    + intros H. f_equal. pose proof (N.div_mod n 60 ltac:(lia)) as E. lia.
  - unfold parse_after, go_parse_duration_secs. rewrite fmt_d_nonempty, parse_fmt_d, DecimalN.Unsigned.of_to.
    replace (Z.leb (Z.of_N n * 1000000000) (2 ^ 63 - 1)) with false
      by (symmetry; apply Z.leb_gt; lia).
    reflexivity.
Qed.

Lemma after_minutes_roundtrip_witness :
  parse_after (fmt_d 90) (wait empty_rule) = Ok 1%N /\
  read_after (with_wait empty_rule (90 / 60)) = "60" /\
  parse_after (fmt_d 9223372037) (wait empty_rule) = Err "unable to parse after duration".
Proof.
  destruct (proj1 (after_minutes_roundtrip 90 empty_rule) ltac:(lia)) as [H1 [H2 _]].
  split; [exact H1 | split; [rewrite H2; reflexivity |]].
  apply (proj2 (after_minutes_roundtrip 9223372037 empty_rule)). lia.
Defined.

Lemma validate_rules_window_min (mt : string) (rules : list rule) (k i : nat) (r : rule) :
  nth_error rules i = Some r ->
  (windowing_duration r < windowing_min_duration r)%N ->
  validate_rules mt k rules <> None.
Proof.
  revert k i. induction rules as [|r' rs IH]; intros k i Hnth Hlt; [destruct i; discriminate|].
  simpl. destruct (String.eqb (criteria r') ""); [discriminate|].
  destruct (N.ltb (windowing_duration r') (windowing_min_duration r')) eqn:Hw; [discriminate|].
  destruct (andb _ _); [discriminate|]. destruct (andb _ _); [discriminate|].
  destruct i as [|i]; simpl in Hnth.
  - injection Hnth as <-. apply N.ltb_ge in Hw. lia.
  - eapply IH; eauto.
Qed.

Lemma validate_rules_window_sound (mt : string) (rules : list rule) (k i : nat) :
  validate_rules mt k rules = Some (RSWindowMinExceedsWindow i) ->
  exists r, (k <= i)%nat /\ nth_error rules (i - k) = Some r /\
            (windowing_duration r < windowing_min_duration r)%N.
Proof.
  revert k. induction rules as [|r rs IH]; intros k H; [discriminate|].
  simpl in H. destruct (String.eqb (criteria r) ""); [discriminate|].
  destruct (N.ltb (windowing_duration r) (windowing_min_duration r)) eqn:Hw.
  - injection H as <-. exists r. rewrite Nat.sub_diag. apply N.ltb_lt in Hw. auto.
  - destruct (andb _ _); [discriminate|]. destruct (andb _ _); [discriminate|].
    destruct (IH (S k) H) as [r' [Hk [Hn Hl]]]. exists r'.
    split; [lia|]. split; [|exact Hl].
    replace (i - k)%nat with (S (i - S k)) by lia. exact Hn.
Qed.

(** C6: [Validate] fails on any rule set holding a rule whose
    [WindowingMinDuration] exceeds its [WindowingDuration], and its
    windowing error is only ever raised for such a rule. *)
Theorem validate_window_min_duration (rs : rule_set) :
  (forall i r, nth_error (rs_rules rs) i = Some r ->
     (windowing_duration r < windowing_min_duration r)%N -> Validate rs <> None) /\
  (forall i, Validate rs = Some (RSWindowMinExceedsWindow i) ->
     exists r, nth_error (rs_rules rs) i = Some r /\
               (windowing_duration r < windowing_min_duration r)%N).
Proof.
  split.
  - intros i r Hn Hl. unfold Validate.
    destruct (andb _ _); [discriminate|]. destruct (andb _ _); [discriminate|].
    eapply validate_rules_window_min; eauto.
  - intros i H. unfold Validate in H.
    destruct (andb _ _); [discriminate|]. destruct (andb _ _); [discriminate|].
    destruct (validate_rules_window_sound _ _ _ _ H) as [r [_ [Hn Hl]]].
    rewrite Nat.sub_0_r in Hn. eauto.
Qed.

(** C5 (code_bug): a numeric rule set whose rule uses the text-only
    [contains] criteria passes [ParseConfig]: the numeric branch never reads
    [contains], the rule keeps an empty criteria and is dropped, so the
    textual-criteria check of [Validate] (which rejects that very rule) is
    never reached.  The same holds for a text rule set using [min_value]. *)
Theorem ruleset_criteria_type_mismatch_accepted :
  ParseConfig (one_rule_config "numeric"
                 (mkValue "" "" "error" "" "" "" "" "" "" "" None)) =
    inl (Ok (mkRuleSet "cpu" "" "numeric" [])) /\
  Validate (mkRuleSet "cpu" "" "numeric"
              [mkRule apiRuleSetContains (VStr "error") 0 1 None 0 0]) =
    Some (RSTextCriteriaOnNumeric 0) /\
  ParseConfig (one_rule_config "text"
                 (mkValue "" "" "" "" "" "10" "" "" "" "" None)) =
    inl (Ok (mkRuleSet "cpu" "" "text" [])) /\
  Validate (mkRuleSet "cpu" "" "text"
              [mkRule apiRuleSetMinValue (VStr "10") 0 1 None 0 0]) =
    Some (RSNumericCriteriaOnText 0).
Proof. repeat split; vm_compute; reflexivity. Qed.

(** *** Graphs *)

Import Graph.

(** C4 (counterexample): a datapoint with no locator at all passes the
    locator step of [ParseConfig] and the graph's [Validate]. *)
Lemma graph_no_locator_accepted :
  let dp := mkDatapoint "" 0 "" None None "" None in
  parse_locator dp 0 "" "" "" = Ok dp /\ Graph.Validate [dp] [] = None.
Proof. split; reflexivity. Qed.

(** C4 (amended): the locator step of [ParseConfig] fails exactly when
    [check] and [metric_name] are not supplied together, or when more than
    one of the locators check+metric_name, caql and search is supplied; it
    succeeds with exactly one locator, and also with none. *)
Theorem graph_locator_at_most_one (dp : datapoint) (check : N) (name caql search : string) :
  is_err (parse_locator dp check name caql search) =
    orb (xorb (N.eqb check 0) (String.eqb name ""))
        (Nat.leb 2 (b2n (negb (N.eqb check 0)) + b2n (negb (String.eqb caql ""))
                    + b2n (negb (String.eqb search "")))).
Proof.
  unfold parse_locator.
  replace (N.ltb 0 check) with (negb (N.eqb check 0)).
  2:{ destruct (N.eqb check 0) eqn:E; symmetry.
      - apply N.eqb_eq in E; subst; reflexivity.
      - apply N.ltb_lt. apply N.eqb_neq in E. lia. }
  destruct (N.eqb check 0), (String.eqb name ""), (String.eqb caql ""),
           (String.eqb search ""); reflexivity.
Qed.

(** C9: the API-to-state mapping of an axis sends "l" and "" to "left", "r"
    to "right", and any other value to a provider-bug error, so the state
    holds only "left" or "right"; the state-to-API mapping sends "left" and
    "" to "l" and "right" to "r". *)
Theorem graph_axis_mapping :
  (forall a, axis_api_to_state a = Ok "left" <-> a = "l" \/ a = "") /\
  (forall a, axis_api_to_state a = Ok "right" <-> a = "r") /\
  (forall a w, axis_api_to_state a = Ok w -> w = "left" \/ w = "right") /\
  (forall a, is_err (axis_api_to_state a) =
               negb (orb (String.eqb a "l") (orb (String.eqb a "") (String.eqb a "r")))) /\
  axis_state_to_api (Some "left") = Ok "l" /\
  axis_state_to_api (Some "") = Ok "l" /\
  axis_state_to_api (Some "right") = Ok "r".
Proof.
  unfold axis_api_to_state.
  repeat split; try reflexivity.
  - intros H. destruct (String.eqb_spec a "l"); [auto|].
    destruct (String.eqb_spec a ""); [auto|].
    destruct (String.eqb a "r"); discriminate.
  - intros [-> | ->]; reflexivity.
  - intros H. destruct (String.eqb_spec a "l"); [discriminate|].
    destruct (String.eqb_spec a ""); [discriminate|].
    destruct (String.eqb_spec a "r"); [auto | discriminate].
  - intros ->. reflexivity.
  - intros a w H. destruct (orb _ _); [injection H as <-; auto|].
    destruct (String.eqb a "r"); [injection H as <-; auto | discriminate].
  - intros a. destruct (String.eqb a "l"), (String.eqb a ""), (String.eqb a "r"); reflexivity.
Qed.

(** *** Delete *)

Import Delete.

(** C8 (counterexample): when the vendor client reports the check or graph
    as already gone, Delete returns that error and the ID is not cleared. *)
Lemma delete_keeps_id_on_client_error :
  let gone := fun _ : string => Some "404 Not Found" in
  checkDelete (mkResourceData "/check_bundle/1234") gone =
    (Some "404 Not Found", mkResourceData "/check_bundle/1234") /\
  graphDelete (mkResourceData "/graph/abcd") gone =
    (Some ("unable to delete graph " ++ dquote ++ "/graph/abcd" ++ dquote ++ ": 404 Not Found"),
     mkResourceData "/graph/abcd").
Proof. split; reflexivity. Qed.

(** C8 (amended): Delete on a check or graph clears the ID exactly when the
    vendor client's delete call succeeds; on any client error (including
    not-found) the error is returned and the ID is left unchanged. *)
Theorem delete_clears_id_iff_client_ok (d : resource_data) (client : string -> client_result) :
  rd_id (snd (checkDelete d client)) =
    match client (rd_id d) with None => "" | Some _ => rd_id d end /\
  fst (checkDelete d client) = client (rd_id d) /\
  rd_id (snd (graphDelete d client)) =
    match client (rd_id d) with None => "" | Some _ => rd_id d end /\
  (fst (graphDelete d client) = None <-> client (rd_id d) = None).
Proof.
  unfold checkDelete, graphDelete.
  destruct (client (rd_id d)); simpl; repeat split; try reflexivity; discriminate.
Qed.

(** *** HTTP check config *)

Import HTTP.

(** C7 (code_bug): the header loop of [checkAPIToStateHTTP] deletes from
    [swamp] every key longer than ["header_"], header or not.  An unknown
    key such as ["unexpected_key"] is therefore never reported, and the
    whitelisted ["submission_url"] is not deleted from [c.Config]; only
    unknown keys of at most 7 characters (such as ["foo"]) raise the error. *)
Theorem http_leftover_long_key_not_reported :
  checkAPIToStateHTTP [("url", "http://example.com/"); ("unexpected_key", "1");
                       ("submission_url", "https://api.example.com/submit")] =
    ([("url", "http://example.com/"); ("unexpected_key", "1");
      ("submission_url", "https://api.example.com/submit")],
     Ok [("headers", SMap []); ("url", SStr "http://example.com/")]) /\
  snd (checkAPIToStateHTTP [("url", "http://example.com/"); ("foo", "1")]) =
    Err "PROVIDER BUG: API Config not empty".
Proof. split; vm_compute; reflexivity. Qed.

(** C1 (code_bug): an HTTP check whose URL names a port round-trips to the
    provider-bug error instead of its attributes: [checkConfigToAPIHTTP]
    adds the ["port"] key, which [checkAPIToStateHTTP] neither consumes nor
    whitelists.  Without a port the same block round-trips. *)
Theorem http_check_port_roundtrip_fails :
  http_config_roundtrip (sample_bundle "" 60 (10 # 1))
                        (sample_http_block "https://example.com:8443/health") =
    Err "PROVIDER BUG: API Config not empty" /\
  is_err (http_config_roundtrip (sample_bundle "" 60 (10 # 1))
                                (sample_http_block "https://example.com/health")) = false.
Proof. split; vm_compute; reflexivity. Qed.

(** ** Further properties of the translation code *)

(** *** Helper lemmas on Go maps *)

Lemma map_get_set_eq (k v : string) (m : gomap) : map_get k (map_set k v m) = Some v.
Proof.
  induction m as [|[k' v'] m IH]; simpl.
  - rewrite String.eqb_refl. reflexivity.
  - destruct (String.eqb_spec k k') as [->|Hne]; simpl.
    + rewrite String.eqb_refl. reflexivity.
    + apply String.eqb_neq in Hne. rewrite Hne. exact IH.
Qed.

Lemma map_get_set_neq (k k2 v : string) (m : gomap) :
  k2 <> k -> map_get k2 (map_set k v m) = map_get k2 m.
Proof.
  intros Hne. induction m as [|[k' v'] m IH]; simpl.
  - apply String.eqb_neq in Hne. rewrite Hne. reflexivity.
  - destruct (String.eqb_spec k k') as [->|Hk]; simpl.
    + apply String.eqb_neq in Hne. rewrite Hne. reflexivity.
    + destruct (String.eqb k2 k'); [reflexivity | exact IH].
Qed.

(** *** Check bundles: status, [Fixup] and metric filters *)

Import CheckMore.

(** The [active] attribute survives the trip to the API status and back;
    an API status other than "active" and "disabled" reads as inactive and
    is written back as "disabled". *)
Theorem check_status_roundtrip :
  (forall b, checkAPIStatusToBool (checkActiveToAPIStatus b) = b) /\
  (forall s, checkActiveToAPIStatus (checkAPIStatusToBool s) =
               if String.eqb s "active" then "active" else "disabled").
Proof.
  split.
  - intros []; reflexivity.
  - intros s. unfold checkAPIStatusToBool, checkActiveToAPIStatus, checkStatusActive.
    destruct (String.eqb s "active"); [reflexivity|].
    destruct (String.eqb s checkStatusDisabled); reflexivity.
Qed.

(** [Fixup] never changes the outcome of [Validate]; and a CloudWatch check
    that passes validation has period 60 or 300 and, after [Fixup], the
    config key "granularity" set to "1" or "5" accordingly. *)
Theorem fixup_cloudwatch_granularity (c : check_bundle) :
  Check.Validate (Fixup c) = Check.Validate c /\
  (cb_type c = apiCheckTypeCloudWatchAttr -> Check.Validate c = None ->
     (cb_period c = 60%N /\ map_get config_Granularity (cb_config (Fixup c)) = Some "1") \/
     (cb_period c = 300%N /\ map_get config_Granularity (cb_config (Fixup c)) = Some "5")).
Proof.
  split.
  - unfold Fixup. destruct (String.eqb (cb_type c) apiCheckTypeCloudWatchAttr) eqn:Ht; [|reflexivity].
    destruct (N.eqb (cb_period c) 60); [|destruct (N.eqb (cb_period c) 300); [|reflexivity]];
      unfold Check.Validate, with_config; simpl; rewrite Ht; reflexivity.
  - intros Ht Hv. unfold Check.Validate in Hv. rewrite Ht, String.eqb_refl in Hv.
    unfold Fixup. rewrite Ht, String.eqb_refl.
    destruct (andb _ _); [discriminate|]. destruct (andb _ _); [discriminate|].
    destruct (negb _); [discriminate|].
    destruct (N.eqb_spec (cb_period c) 60) as [E|E].
    + left. split; [exact E|]. apply map_get_set_eq.
    + destruct (N.eqb_spec (cb_period c) 300) as [F|F].
      * right. split; [exact F|]. apply map_get_set_eq.
      * discriminate.
Qed.

Lemma fixup_cloudwatch_granularity_witness :
  cb_type (sample_bundle "cloudwatch" 300 (10 # 1)) = apiCheckTypeCloudWatchAttr /\
  Check.Validate (sample_bundle "cloudwatch" 300 (10 # 1)) = None /\
  ((cb_period (sample_bundle "cloudwatch" 300 (10 # 1)) = 60%N /\
    map_get config_Granularity (cb_config (Fixup (sample_bundle "cloudwatch" 300 (10 # 1)))) = Some "1") \/
   (cb_period (sample_bundle "cloudwatch" 300 (10 # 1)) = 300%N /\
    map_get config_Granularity (cb_config (Fixup (sample_bundle "cloudwatch" 300 (10 # 1)))) = Some "5")).
Proof.
  assert (H1 : cb_type (sample_bundle "cloudwatch" 300 (10 # 1)) = apiCheckTypeCloudWatchAttr)
    by reflexivity.
  assert (H2 : Check.Validate (sample_bundle "cloudwatch" 300 (10 # 1)) = None) by (vm_compute; reflexivity).
  split; [exact H1|]. split; [exact H2|].
  exact (proj2 (fixup_cloudwatch_granularity (sample_bundle "cloudwatch" 300 (10 # 1))) H1 H2).
Defined.

(** A [metric_filter] element of the state is written to the API by
    [ParseConfig] and read back by [checkRead] unchanged, whatever its
    four strings. *)
Theorem metric_filter_state_roundtrip (s : metric_filter_state) :
  read_metric_filter (metric_filter_state_to_api s) = Ok s.
Proof. destruct s as [t r q c]. reflexivity. Qed.

(** An API metric filter [[type, regex, comment]] without a tag query
    (and a comment other than "tags") reads as an empty [tag_query], which
    [ParseConfig] writes back as the five-element
    [[type, regex, "tags", "", comment]]. *)
Theorem metric_filter_api_gains_empty_tags (t r c : string) :
  c <> "tags" ->
  read_metric_filter [t; r; c] = Ok (mkMFState t r "" c) /\
  metric_filter_state_to_api (mkMFState t r "" c) = [t; r; "tags"; ""; c].
Proof.
  intros Hc. split; [|reflexivity].
  unfold read_metric_filter; simpl.
  apply String.eqb_neq in Hc. rewrite Hc. reflexivity.
Qed.

Lemma metric_filter_api_gains_empty_tags_witness :
  "count" <> "tags" /\
  read_metric_filter ["allow"; "^cpu"; "count"] = Ok (mkMFState "allow" "^cpu" "" "count") /\
  metric_filter_state_to_api (mkMFState "allow" "^cpu" "" "count") =
    ["allow"; "^cpu"; "tags"; ""; "count"].
Proof.
  assert (H : "count" <> "tags") by discriminate.
  split; [exact H|]. exact (metric_filter_api_gains_empty_tags "allow" "^cpu" "count" H).
Defined.

(** [checkRead] panics (index out of range) on an API metric filter with
    fewer than three entries, or whose third entry is "tags" with fewer
    than five entries; on every other filter it succeeds. *)
Theorem metric_filter_read_panics (m : list string) :
  is_err (read_metric_filter m) = true <->
  (length m < 3)%nat \/ (nth_error m 2 = Some "tags" /\ (length m < 5)%nat).
Proof.
  destruct m as [|t [|r [|x [|q [|c rest]]]]]; simpl;
    try (split; [intros _; left; lia | reflexivity]);
    unfold read_metric_filter; simpl;
    destruct (String.eqb_spec x "tags") as [->|Hx]; simpl;
    split; intros H; try reflexivity; try discriminate;
    try (right; split; [reflexivity | lia]);
    destruct H as [H|[H1 H2]]; try lia; try (injection H1 as H1; congruence).
Qed.

(** *** Graph datapoints: [ParseUint] and the display attributes *)

Import GraphMore.

Lemma digits_value_from_ge (l : list ascii) (acc : N) : (acc <= digits_value_from l acc)%N.
Proof.
  revert acc. induction l as [|c l IH]; intros acc; simpl; [lia|].
  specialize (IH (acc * 10 + (N_of_ascii c - 48))%N). lia.
Qed.

(** [parse_uint_loop] on digits: the value, saturated at [maxUint64]. *)
Lemma parse_uint_loop_digits (s : string) (acc : N) :
  (acc <= maxUint64)%N ->
  forallb is_digit (list_ascii_of_string s) = true ->
  parse_uint_loop s acc =
    (let v := digits_value_from (list_ascii_of_string s) acc in
     if N.leb v maxUint64 then (v, false) else (maxUint64, true)).
Proof.
  revert acc. induction s as [|c t IH]; intros acc Hacc Hd; simpl in *.
  - apply N.leb_le in Hacc. rewrite Hacc. reflexivity.
  - apply andb_prop in Hd. destruct Hd as [Hc Ht]. rewrite Hc. simpl.
    pose proof (digits_value_from_ge (list_ascii_of_string t) (acc * 10 + (N_of_ascii c - 48))) as Hge.
    destruct (N.leb_spec cutoff acc) as [Hcut|Hcut].
    + change cutoff with 1844674407370955162%N in Hcut.
      unfold digits_value_from in *. simpl.
      match goal with |- _ = (if N.leb ?x maxUint64 then _ else _) =>
        destruct (N.leb_spec x maxUint64) end;
        [change maxUint64 with 18446744073709551615%N in *; lia | reflexivity].
    + destruct (N.ltb_spec maxUint64 (acc * 10 + (N_of_ascii c - 48))%N) as [Hov|Hov].
      * unfold digits_value_from in *. simpl.
        match goal with |- _ = (if N.leb ?x maxUint64 then _ else _) =>
          destruct (N.leb_spec x maxUint64) end; [lia | reflexivity].
      * rewrite IH by assumption. reflexivity.
Qed.

Lemma pos_of_uint_acc_val (u : Decimal.uint) (p : positive) :
  Npos (Pos.of_uint_acc u p) = uint_val u (Npos p).
Proof.
  revert p. induction u; intros p; cbn [Pos.of_uint_acc uint_val]; try reflexivity;
    rewrite IHu; f_equal; lia.
Qed.

Lemma of_uint_val (u : Decimal.uint) : N.of_uint u = uint_val u 0.
Proof.
  unfold N.of_uint.
  induction u; simpl; try reflexivity; try exact IHu;
    rewrite pos_of_uint_acc_val; reflexivity.
Qed.

Lemma digits_of_uint (u : Decimal.uint) (acc : N) :
  forallb is_digit (list_ascii_of_string (NilEmpty.string_of_uint u)) = true /\
  digits_value_from (list_ascii_of_string (NilEmpty.string_of_uint u)) acc = uint_val u acc.
Proof.
  revert acc. induction u; intros acc; [split; reflexivity| ..];
    (destruct (IHu 0%N) as [H1 _]; split;
     [ simpl; exact H1
     | unfold digits_value_from in *; simpl; rewrite (proj2 (IHu _));
       first [reflexivity | f_equal; lia] ]).
Qed.

Lemma fmt_d_digits (n : N) :
  fmt_d n <> EmptyString /\
  forallb is_digit (list_ascii_of_string (fmt_d n)) = true /\ digits_value (fmt_d n) = n.
Proof.
  unfold fmt_d, digits_value.
  assert (E : NilZero.string_of_uint (N.to_uint n) = NilEmpty.string_of_uint (N.to_uint n)).
  { pose proof (to_uint_nonnil n). unfold NilZero.string_of_uint.
    destruct (N.to_uint n); [congruence | reflexivity ..]. }
  rewrite E. destruct (digits_of_uint (N.to_uint n) 0) as [H1 H2].
  split; [|split; [exact H1|]].
  - pose proof (to_uint_nonnil n). destruct (N.to_uint n); simpl; congruence.
  - rewrite H2, <- of_uint_val. apply DecimalN.Unsigned.of_to.
Qed.

Lemma go_parse_uint64_fmt_d (n : N) :
  (n <= maxUint64)%N -> go_parse_uint64 (fmt_d n) = (n, false).
Proof.
  intros Hn. destruct (fmt_d_digits n) as [Hne [Hd Hv]].
  assert (H : parse_uint_loop (fmt_d n) 0 = (n, false)).
  { rewrite parse_uint_loop_digits by first [exact Hd | lia].
    unfold digits_value in Hv. cbv zeta. rewrite Hv.
    apply N.leb_le in Hn. rewrite Hn. reflexivity. }
  unfold go_parse_uint64. destruct (fmt_d n); [congruence | exact H].
Qed.

(** A datapoint's display fields survive [graphRead] followed by
    [ParseConfig], except that a missing or empty [alpha] comes back as
    "0", a boolean [derive] (also [true]) or an empty one comes back as
    [false], and a [derive] of another type makes [graphRead] fail; the
    [stack] (a Go [uint]) and [hidden] flags are kept. *)
Theorem graph_display_roundtrip (d : dp_display) :
  (forall u, d_stack d = Some u -> (u <= maxUint64)%N) ->
  display_roundtrip d =
    match d_derive d with
    | DOther => Err "PROVIDER BUG: Unsupported type for derive"
    | der =>
        Ok (mkDpDisplay (d_hidden d)
              (match d_alpha d with
               | Some a => if String.eqb a "" then Some "0" else Some a
               | None => Some "0"
               end)
              (match der with
               | DStr s => if String.eqb s "" then DBool false else DStr s
               | _ => DBool false
               end)
              (d_stack d))
    end.
Proof.
  destruct d as [h a der st]; simpl. intros Hst.
  assert (Hs : match option_map fmt_d st with
               | Some s => if String.eqb s "" then None else Some (fst (go_parse_uint64 s))
               | None => None
               end = st).
  { destruct st as [u|]; [|reflexivity]. simpl.
    rewrite fmt_d_nonempty, go_parse_uint64_fmt_d by (apply Hst; reflexivity). reflexivity. }
  unfold display_roundtrip, read_display, parse_display; simpl.
  destruct der as [b|s|]; simpl; try reflexivity;
    (rewrite Bool.negb_involutive, Hs; destruct a as [x|]; [|reflexivity];
     destruct (String.eqb_spec x "0") as [->|Hx]; reflexivity).
Qed.

Lemma graph_display_roundtrip_witness :
  let d := mkDpDisplay true (Some "") (DBool true) (Some 3%N) in
  (forall u, d_stack d = Some u -> (u <= maxUint64)%N) /\
  display_roundtrip d = Ok (mkDpDisplay true (Some "0") (DBool false) (Some 3%N)).
Proof.
  intros d.
  assert (H : forall u, d_stack d = Some u -> (u <= maxUint64)%N).
  { intros u E. injection E as <-. unfold maxUint64. lia. }
  split; [exact H|]. exact (graph_display_roundtrip d H).
Defined.

(** The [stack] attribute as [ParseConfig] reads it: unset when empty; a
    string of decimal digits gives its value (leading zeros dropped),
    saturated at 2^64-1; a string starting with any other byte gives 0, the
    [ParseUint] error being discarded. *)
Theorem graph_stack_parse (s : string) :
  let stack := d_stack (parse_display (mkDpDisplayAttrs None None None (Some s))) in
  (s = "" -> stack = None) /\
  (s <> "" -> forallb is_digit (list_ascii_of_string s) = true ->
     stack = Some (N.min (digits_value s) maxUint64)) /\
  (forall c t, s = String c t -> is_digit c = false -> stack = Some 0%N).
Proof.
  cbv zeta. unfold parse_display; simpl. split; [|split].
  - intros ->. reflexivity.
  - intros Hne Hd. destruct (String.eqb_spec s "") as [E|_]; [congruence|].
    unfold go_parse_uint64. destruct s as [|c t]; [congruence|].
    rewrite parse_uint_loop_digits by first [exact Hd | lia].
    unfold digits_value. cbv zeta.
    destruct (N.leb_spec (digits_value_from (list_ascii_of_string (String c t)) 0) maxUint64) as [L|L].
    + rewrite N.min_l by exact L. reflexivity.
    + rewrite N.min_r by lia. reflexivity.
  - intros c t -> Hc. simpl. rewrite Hc. reflexivity.
Qed.

Lemma graph_stack_parse_witness :
  d_stack (parse_display (mkDpDisplayAttrs None None None (Some "99999999999999999999"))) =
    Some maxUint64 /\
  d_stack (parse_display (mkDpDisplayAttrs None None None (Some "x1"))) = Some 0%N.
Proof.
  split.
  - rewrite (proj1 (proj2 (graph_stack_parse "99999999999999999999")));
      [reflexivity | discriminate | reflexivity].
  - exact (proj2 (proj2 (graph_stack_parse "x1")) "x"%char "1" eq_refl eq_refl).
Defined.

Import Graph.

(** Starting from a datapoint with neither check nor metric name (as
    [ParseConfig] does), every datapoint the locator step accepts has a
    check exactly when it has a metric name, so [Validate] can only report
    the [function]/[metric_type = text] conflict on it. *)
Theorem graph_locator_output_paired (dp : datapoint) (check : N) (name caql search : string)
    (dp' : datapoint) :
  dp_check_id dp = 0%N -> dp_metric_name dp = "" ->
  parse_locator dp check name caql search = Ok dp' ->
  (dp_check_id dp' = 0%N <-> dp_metric_name dp' = "") /\
  Graph.Validate [dp'] [] =
    if andb (String.eqb (dp_metric_type dp') "text")
            (match dp_derive dp' with Some _ => true | None => false end)
    then Some "function is mutually exclusive when metric_type=text" else None.
Proof.
  intros H0 H1 H.
  assert (Hp : dp_check_id dp' = 0%N <-> dp_metric_name dp' = "").
  { unfold parse_locator in H.
    destruct (N.eqb_spec check 0) as [Ec|Ec];
      destruct (String.eqb_spec name "") as [En|En];
      destruct (N.ltb_spec 0 check) as [Lc|Lc]; try lia; simpl in H;
      repeat match type of H with
             | context [if ?b then _ else _] => destruct b
             end;
      try discriminate; injection H as <-; simpl; rewrite ?H0, ?H1; split; intros; try congruence. }
  split; [exact Hp|].
  unfold Graph.Validate; simpl.
  destruct (N.eqb_spec (dp_check_id dp') 0) as [E|E];
    destruct (String.eqb_spec (dp_metric_name dp') "") as [F|F]; simpl;
    try (exfalso; tauto);
    destruct (andb _ _); reflexivity.
Qed.

Lemma graph_locator_output_paired_witness :
  let dp := mkDatapoint "" 0 "" None None "numeric" None in
  (dp_check_id (mkDatapoint "" 42 "cpu" None None "numeric" None) = 0%N <->
   dp_metric_name (mkDatapoint "" 42 "cpu" None None "numeric" None) = "") /\
  Graph.Validate [mkDatapoint "" 42 "cpu" None None "numeric" None] [] = None.
Proof.
  intros dp.
  exact (graph_locator_output_paired dp 42 "cpu" "" "" (mkDatapoint "" 42 "cpu" None None "numeric" None)
           eq_refl eq_refl eq_refl).
Defined.

(** *** Rule sets: criteria invariants, [ruleSetRead] and contact groups *)

Import RuleSet.
Import RuleSetMore.

Lemma parse_thens_criteria (ts : list then_attrs) (r r' : rule) :
  parse_thens r ts = Ok r' -> criteria r' = criteria r.
Proof.
  revert r. induction ts as [|t ts IH]; intros r H; simpl in H.
  - injection H as <-. reflexivity.
  - destruct (parse_then r t) as [r1|e] eqn:E; [|discriminate].
    rewrite (IH _ H). unfold parse_then in E.
    destruct (match t_after t with Some s => parse_after s (wait r) | None => Ok (wait r) end);
      [|discriminate].
    destruct (t_severity t); injection E as <-; reflexivity.
Qed.

Lemma parse_overs_criteria (os : list over_attrs) (r r' : rule) :
  parse_overs r os = Ok r' -> criteria r' = criteria r.
Proof.
  revert r. induction os as [|o os IH]; intros r H; simpl in H.
  - injection H as <-. reflexivity.
  - destruct (parse_over r o) as [r1|e] eqn:E; [|discriminate].
    rewrite (IH _ H). unfold parse_over in E.
    destruct (if String.eqb (o_last o) "" then Some 0%N else _); [|discriminate].
    destruct (if String.eqb (o_atleast o) "" then Some 0%N else _); [|discriminate].
    destruct (andb _ _); injection E as <-; reflexivity.
Qed.

Lemma parse_if_criteria (mt : string) (ia : if_attrs) (r : rule) :
  parse_if mt ia = Ok r -> criteria r = "" \/ In (criteria r) (criteria_for mt).
Proof.
  unfold parse_if. intros H.
  destruct (match i_then ia with Some ts => parse_thens empty_rule ts | None => Ok empty_rule end)
    as [r0|e] eqn:E0; [|discriminate].
  assert (C0 : criteria r0 = "").
  { destruct (i_then ia); [apply parse_thens_criteria in E0; exact E0|].
    injection E0 as <-. reflexivity. }
  destruct (i_value ia) as [[|va vas]|]; [discriminate| |injection H as <-; left; exact C0].
  destruct (parse_criteria mt r0 va) as [r1|e] eqn:E1; [|discriminate].
  assert (C1 : criteria r1 = "" \/ In (criteria r1) (criteria_for mt)).
  { unfold parse_criteria, criteria_for in *.
    destruct (String.eqb mt ruleSetMetricTypeNumeric); [|destruct (String.eqb mt ruleSetMetricTypeText); [|discriminate]];
      injection E1 as <-;
      repeat match goal with |- context [if ?b then _ else _] => destruct b end;
      simpl; rewrite ?C0; tauto. }
  destruct (v_over va); [apply parse_overs_criteria in H; rewrite H; exact C1|].
  injection H as <-. exact C1.
Qed.

Lemma parse_ifs_criteria (mt : string) (ifs : list if_attrs) (rules : list rule) :
  parse_ifs mt ifs = Ok rules -> Forall (fun r => In (criteria r) (criteria_for mt)) rules.
Proof.
  revert rules. induction ifs as [|ia ifs IH]; intros rules H; simpl in H.
  - injection H as <-. constructor.
  - destruct (parse_if mt ia) as [r|e] eqn:E; [|discriminate].
    destruct (parse_ifs mt ifs) as [rs|e] eqn:F; [|discriminate].
    injection H as <-. specialize (IH rs eq_refl).
    destruct (String.eqb_spec (criteria r) "") as [Hc|Hc]; [exact IH|].
    constructor; [|exact IH].
    destruct (parse_if_criteria mt ia r E) as [H|H]; [contradiction | exact H].
Qed.

Lemma validate_rules_allowed (mt : string) (i : nat) (rules : list rule) :
  Forall (fun r => In (criteria r) (criteria_for mt)) rules ->
  validate_rules mt i rules = None \/ exists j, validate_rules mt i rules = Some (RSWindowMinExceedsWindow j).
Proof.
  revert i. induction rules as [|r rules IH]; intros i H; simpl; [left; reflexivity|].
  inversion H as [|? ? Hr Hrs]; subst.
  unfold criteria_for in Hr.
  destruct (String.eqb_spec mt ruleSetMetricTypeNumeric) as [Em|Em];
    [|destruct (String.eqb_spec mt ruleSetMetricTypeText) as [Et|Et]];
    [subst mt.. | contradiction];
    simpl in Hr; repeat destruct Hr as [Hr|Hr]; try contradiction;
    rewrite <- Hr; simpl;
    (destruct (N.ltb _ _); [right; eexists; reflexivity|]);
    simpl; apply IH; exact Hrs.
Qed.

(** [ParseConfig] of a rule set never fails with the empty-criteria or the
    criteria/metric-type errors of [Validate]: rules with no criteria are
    dropped and each metric type only reads its own criteria attributes.
    Its only validation errors are the metric name/pattern ones and the
    window ones. *)
Theorem ruleset_parse_only_reachable_errors (cfg : rule_set_config) (e : rs_error) :
  ParseConfig cfg = inr e ->
  e = RSNameAndPattern \/ e = RSNoNameOrPattern \/ exists i, e = RSWindowMinExceedsWindow i.
Proof.
  unfold ParseConfig. destruct (parse_ifs (c_metric_type cfg) (c_if cfg)) as [rules|m] eqn:E;
    [|discriminate].
  unfold Validate; simpl.
  destruct (andb _ _); [intros H; injection H as <-; auto|].
  destruct (andb _ _); [intros H; injection H as <-; auto|].
  destruct (validate_rules_allowed _ 0 _ (parse_ifs_criteria _ _ _ E)) as [V|[j V]];
    rewrite V; intros H; [discriminate|]. injection H as <-. eauto.
Qed.

Lemma ruleset_parse_only_reachable_errors_witness :
  let cfg := mkRuleSetConfig "cpu" "" "numeric"
               [mkIf (Some [mkThen (Some "60") (Some 1%Z)])
                     (Some [mkValue "" "" "" "" "" "" "90" "" "" ""
                                    (Some [mkOver "60" "120" "average"])])] in
  ParseConfig cfg = inr (RSWindowMinExceedsWindow 0) /\
  (RSWindowMinExceedsWindow 0 = RSNameAndPattern \/ RSWindowMinExceedsWindow 0 = RSNoNameOrPattern \/
   exists i, RSWindowMinExceedsWindow 0 = RSWindowMinExceedsWindow i).
Proof.
  intros cfg. assert (H : ParseConfig cfg = inr (RSWindowMinExceedsWindow 0)) by (vm_compute; reflexivity).
  split; [exact H|]. exact (ruleset_parse_only_reachable_errors cfg _ H).
Defined.

(** A rule whose [value] block sets one string criteria attribute of its
    metric type to a non-empty [s] is read back by [ruleSetRead] with that
    same attribute and value. *)
Theorem ruleset_value_roundtrip (mt a s : string) :
  In (mt, a) [("numeric", "min_value"); ("numeric", "max_value"); ("numeric", "eq_value");
              ("numeric", "neq_value"); ("text", "contains"); ("text", "match");
              ("text", "not_match"); ("text", "not_contain")] ->
  s <> "" ->
  exists r, parse_criteria mt empty_rule (value_with a s) = Ok r /\
            read_value r = Ok [(a, VStr s)].
Proof.
  intros Hin Hs. apply String.eqb_neq in Hs.
  simpl in Hin; repeat destruct Hin as [Hin|Hin]; try contradiction;
    (injection Hin as <- <-; eexists; split;
     [ unfold parse_criteria, value_with, ne; simpl; rewrite ?Hs; simpl; reflexivity
     | reflexivity ]).
Qed.

Lemma ruleset_value_roundtrip_witness :
  exists r, parse_criteria "text" empty_rule (value_with "match" "^ERR") = Ok r /\
            read_value r = Ok [("match", VStr "^ERR")].
Proof.
  apply (ruleset_value_roundtrip "text" "match" "^ERR").
  - simpl. tauto.
  - discriminate.
Defined.

Lemma fmt_int_of_N (n : N) : HTTP.fmt_int (Z.of_N n) = fmt_d n.
Proof. destruct n; reflexivity. Qed.

(** For either metric type, an [absent] criteria of [n] seconds, written
    in decimal, is stored as
    the float64 [n] seconds and read back by [ruleSetRead] as the same
    decimal string; past the int64 nanosecond range of
    [time.ParseDuration] it is stored as 0 and reads back as "0". *)
Theorem ruleset_absent_roundtrip (mt : string) (n : N) :
  mt = "numeric" \/ mt = "text" ->
  exists r, parse_criteria mt empty_rule (value_with "absent" (fmt_d n)) = Ok r /\
            read_value r =
              Ok [("absent", VStr (if N.leb n 9223372036 then fmt_d n else "0"))].
Proof.
  intros Hmt.
  exists (with_criteria empty_rule apiRuleSetAbsent (VSeconds (absent_seconds (fmt_d n)))). split.
  - destruct Hmt as [-> | ->]; unfold parse_criteria, value_with, ne; simpl;
      rewrite fmt_d_nonempty; simpl; reflexivity.
  - unfold read_value, with_criteria, absent_seconds; simpl.
    destruct (N.leb_spec n 9223372036) as [Hn|Hn].
    + rewrite duration_secs_fmt_d by exact Hn. unfold absent_float_to_state; simpl.
      replace (Z.ltb (Z.of_N n * 1000000000) 0) with false
        by (symmetry; apply Z.ltb_ge; lia).
      unfold round_micros.
      replace (Z.abs (Z.of_N n * 1000000000) * 1000000)%Z
        with (Z.of_N n * 1000000 * 1000000000)%Z by lia.
      rewrite Z.div_mul, Z_mod_mult by lia. simpl.
      match goal with |- context [Z.leb ?x ?y] =>
        replace (Z.leb x y) with true by (symmetry; apply Z.leb_le; lia) end.
      replace (Z.of_N n * 1000000 * 1000)%Z with (Z.of_N n * 1000000000)%Z by lia.
      rewrite Z.quot_mul by lia. rewrite fmt_int_of_N. reflexivity.
    + unfold go_parse_duration_secs. rewrite parse_fmt_d, DecimalN.Unsigned.of_to.
      replace (Z.leb (Z.of_N n * 1000000000) (2 ^ 63 - 1)) with false
        by (symmetry; apply Z.leb_gt; lia).
      reflexivity.
Qed.

Lemma ruleset_absent_roundtrip_witness :
  ("text" = "numeric" \/ "text" = "text") /\
  exists r, parse_criteria "text" empty_rule (value_with "absent" (fmt_d 9223372037)) = Ok r /\
            read_value r =
              Ok [("absent", VStr (if N.leb 9223372037 9223372036 then fmt_d 9223372037 else "0"))].
Proof.
  assert (H : "text" = "numeric" \/ "text" = "text") by (right; reflexivity).
  split; [exact H | exact (ruleset_absent_roundtrip "text" 9223372037 H)].
Defined.

Lemma go_parse_int64_fmt_d (n : N) :
  (n < 2 ^ 63)%N -> go_parse_int64 (fmt_d n) = Some (Z.of_N n).
Proof.
  intros Hn. destruct (fmt_d_digits n) as [Hne [Hd _]].
  assert (E : NilZero.uint_of_string (fmt_d n) = Some (N.to_uint n)) by apply parse_fmt_d.
  unfold go_parse_int64. destruct (fmt_d n) as [|c t] eqn:F; [congruence|].
  simpl in Hd. apply andb_prop in Hd. destruct Hd as [Hc _].
  replace (Ascii.eqb c "-") with false
    by (symmetry; apply Ascii.eqb_neq; intros ->; discriminate Hc).
  replace (Ascii.eqb c "+") with false
    by (symmetry; apply Ascii.eqb_neq; intros ->; discriminate Hc).
  rewrite E, DecimalN.Unsigned.of_to.
  replace (andb (Z.leb (- 2 ^ 63) (1 * Z.of_N n)) (Z.leb (1 * Z.of_N n) (2 ^ 63 - 1))) with true.
  - f_equal. lia.
  - symmetry. apply andb_true_iff. split; [apply Z.leb_le | apply Z.leb_le]; lia.
Qed.

Lemma go_uint_of_N (n : N) : (n < 2 ^ 64)%N -> go_uint (Z.of_N n) = n.
Proof.
  intros Hn. unfold go_uint. rewrite Z.mod_small by lia. apply N2Z.id.
Qed.

(** The windowing of an API rule with a function survives [ruleSetRead]
    followed by [ParseConfig] of the [over] block it wrote, unless the
    function is empty or the window duration is 0: then the rule comes back
    with no windowing at all.  (A new rule starts with no minimum
    duration.) *)
Theorem ruleset_window_roundtrip (r base : rule) (f : string) :
  windowing_function r = Some f ->
  (windowing_duration r < 2 ^ 63)%N -> (windowing_min_duration r < 2 ^ 63)%N ->
  windowing_min_duration base = 0%N ->
  exists os, read_over r = Some os /\
    parse_overs base os =
      Ok (if andb (ne f) (N.ltb 0 (windowing_duration r))
          then with_window base f (windowing_duration r) (windowing_min_duration r)
          else base).
Proof.
  intros Hf Hd Hm Hb. unfold read_over. rewrite Hf. eexists. split; [reflexivity|].
  simpl. unfold parse_over; simpl.
  rewrite !fmt_d_nonempty, !go_parse_int64_fmt_d by assumption. simpl.
  rewrite !go_uint_of_N by lia.
  destruct (andb _ _); [|reflexivity].
  destruct (N.ltb_spec 0 (windowing_min_duration r)); [reflexivity|].
  rewrite Hb. replace (windowing_min_duration r) with 0%N by lia. reflexivity.
Qed.

Lemma ruleset_window_roundtrip_witness :
  let r := mkRule apiRuleSetMaxValue (VStr "90") 0 1 (Some "average") 300 0 in
  exists os, read_over r = Some os /\
    parse_overs empty_rule os = Ok (with_window empty_rule "average" 300 0).
Proof.
  intros r.
  apply (ruleset_window_roundtrip r empty_rule "average"); try reflexivity; lia.
Defined.

Lemma cg_get_set_eq (k : N) (v : list string) (m : contact_groups) : cg_get k (cg_set k v m) = Some v.
Proof.
  induction m as [|[k' v'] m IH]; simpl; [rewrite N.eqb_refl; reflexivity|].
  destruct (N.eqb_spec k k') as [->|Hk]; simpl; [rewrite N.eqb_refl; reflexivity|].
  apply N.eqb_neq in Hk. rewrite Hk. exact IH.
Qed.

Lemma cg_get_set_neq (k k2 : N) (v : list string) (m : contact_groups) :
  k2 <> k -> cg_get k2 (cg_set k v m) = cg_get k2 m.
Proof.
  intros Hne. induction m as [|[k' v'] m IH]; simpl.
  - apply N.eqb_neq in Hne. rewrite Hne. reflexivity.
  - destruct (N.eqb_spec k k') as [->|Hk]; simpl.
    + apply N.eqb_neq in Hne. rewrite Hne. reflexivity.
    + destruct (N.eqb k2 k'); [reflexivity | exact IH].
Qed.

Lemma existsb_eqb_In (x : string) (l : list string) : existsb (String.eqb x) l = true <-> In x l.
Proof.
  rewrite existsb_exists. split.
  - intros [y [Hy E]]. apply String.eqb_eq in E. subst. exact Hy.
  - intros H. exists x. split; [exact H | apply String.eqb_refl].
Qed.

Lemma add_notify_spec (cgs : contact_groups) (severity : N) (l : list string) :
  let k := (severity mod 256)%N in
  NoDup (cg_get_zero k cgs) ->
  NoDup (cg_get_zero k (add_notify cgs severity l)) /\
  (forall x, In x (cg_get_zero k (add_notify cgs severity l)) <-> In x (cg_get_zero k cgs) \/ In x l) /\
  (forall k', k' <> k -> cg_get k' (add_notify cgs severity l) = cg_get k' cgs).
Proof.
  cbv zeta. unfold add_notify. revert cgs.
  induction l as [|cid l IH]; intros cgs Hnd; simpl.
  - split; [exact Hnd|]. split; [|reflexivity]. intros x. tauto.
  - set (k := (severity mod 256)%N) in *.
    assert (Hf : match cg_get k cgs with Some l0 => existsb (String.eqb cid) l0 | None => false end
                 = existsb (String.eqb cid) (cg_get_zero k cgs)).
    { unfold cg_get_zero. destruct (cg_get k cgs); reflexivity. }
    rewrite Hf.
    destruct (existsb (String.eqb cid) (cg_get_zero k cgs)) eqn:E.
    + apply existsb_eqb_In in E.
      destruct (IH cgs Hnd) as [H1 [H2 H3]].
      split; [exact H1|]. split; [|exact H3].
      intros x. rewrite H2. split; [intros [H|H]; auto | intros [H|[<-|H]]; auto].
    + assert (Hni : ~ In cid (cg_get_zero k cgs)).
      { intros H. apply existsb_eqb_In in H. congruence. }
      set (cgs' := cg_set k (cg_get_zero k cgs ++ [cid])%list cgs).
      assert (Hk : cg_get_zero k cgs' = (cg_get_zero k cgs ++ [cid])%list).
      { unfold cgs', cg_get_zero at 1. rewrite cg_get_set_eq. reflexivity. }
      assert (Hnd' : NoDup (cg_get_zero k cgs')).
      { rewrite Hk. apply NoDup_app; [exact Hnd | constructor; [intros []|constructor] |].
        intros x Hx [<-|[]]. contradiction. }
      destruct (IH cgs' Hnd') as [H1 [H2 H3]].
      split; [exact H1|]. split.
      * intros x. rewrite H2, Hk, in_app_iff. simpl. tauto.
      * intros k' Hk'. rewrite H3 by exact Hk'. unfold cgs'. apply cg_get_set_neq. exact Hk'.
Qed.

Lemma insert_sorted_In (x y : string) (l : list string) :
  In y (HTTPHash.insert_sorted x l) <-> x = y \/ In y l.
Proof.
  induction l as [|z l IH]; simpl; [tauto|].
  destruct (String.leb x z); simpl; [tauto|]. rewrite IH. tauto.
Qed.

Lemma sort_strings_In (y : string) (l : list string) :
  In y (HTTPHash.sort_strings l) <-> In y l.
Proof.
  induction l as [|x l IH]; simpl; [tauto|].
  rewrite insert_sorted_In, IH. split; intros [H|H]; auto.
Qed.

Lemma insert_sorted_NoDup (x : string) (l : list string) :
  ~ In x l -> NoDup l -> NoDup (HTTPHash.insert_sorted x l).
Proof.
  induction l as [|z l IH]; intros Hx Hnd; simpl; [constructor; [intros []|constructor]|].
  inversion Hnd as [|? ? Hz Hl]; subst.
  destruct (String.leb x z); [constructor; assumption|].
  constructor.
  - rewrite insert_sorted_In. intros [->|H]; [apply Hx; left; reflexivity | contradiction].
  - apply IH; [intros H; apply Hx; right; exact H | exact Hl].
Qed.

Lemma sort_strings_NoDup (l : list string) : NoDup l -> NoDup (HTTPHash.sort_strings l).
Proof.
  induction l as [|x l IH]; intros Hnd; simpl; [constructor|].
  inversion Hnd as [|? ? Hx Hl]; subst.
  apply insert_sorted_NoDup; [rewrite sort_strings_In; exact Hx | apply IH; exact Hl].
Qed.

(** The [notify] lists of a rule with severity [s] (0 < s < 2^63) are
    recorded under [uint8(s)] without duplicates, and [ruleSetRead] writes
    back exactly the groups already listed there plus the notified ones,
    each once; the lists of other severities are untouched.  With severity
    0 no [notify] attribute is written back at all. *)
Theorem ruleset_notify_roundtrip (cgs : contact_groups) (s : N) (l : list string) :
  (0 < s < 2 ^ 63)%N ->
  NoDup (cg_get_zero (s mod 256) cgs) ->
  (exists l', read_notify (add_notify cgs s l) s = Some l' /\ NoDup l' /\
     forall x, In x l' <-> In x (cg_get_zero (s mod 256) cgs) \/ In x l) /\
  (forall k', k' <> (s mod 256)%N -> cg_get k' (add_notify cgs s l) = cg_get k' cgs) /\
  read_notify (add_notify cgs 0 l) 0 = None.
Proof.
  intros Hs Hnd.
  destruct (add_notify_spec cgs s l Hnd) as [H1 [H2 H3]].
  split; [|split; [exact H3 | reflexivity]].
  unfold read_notify.
  replace (andb (N.ltb 0 s) (N.ltb s (2 ^ 63))) with true
    by (symmetry; apply andb_true_iff; split; apply N.ltb_lt; lia).
  eexists. split; [reflexivity|].
  assert (E : match cg_get (s mod 256) (add_notify cgs s l) with
              | Some l0 => HTTPHash.sort_strings l0 | None => [] end =
              HTTPHash.sort_strings (cg_get_zero (s mod 256) (add_notify cgs s l))).
  { unfold cg_get_zero. destruct (cg_get _ _); reflexivity. }
  rewrite E. split; [apply sort_strings_NoDup; exact H1|].
  intros x. rewrite sort_strings_In. apply H2.
Qed.

Lemma ruleset_notify_roundtrip_witness :
  (exists l', read_notify (add_notify new_contact_groups 2 ["/contact_group/1"; "/contact_group/1"]) 2
                = Some l' /\ NoDup l' /\
     forall x, In x l' <-> In x (cg_get_zero (2 mod 256) new_contact_groups) \/
                           In x ["/contact_group/1"; "/contact_group/1"]) /\
  (forall k', k' <> (2 mod 256)%N ->
     cg_get k' (add_notify new_contact_groups 2 ["/contact_group/1"; "/contact_group/1"]) =
     cg_get k' new_contact_groups) /\
  read_notify (add_notify new_contact_groups 0 ["/contact_group/1"; "/contact_group/1"]) 0 = None.
Proof.
  apply ruleset_notify_roundtrip.
  - lia.
  - constructor.
Defined.

Lemma string_leb_trans (x y z : string) :
  String.leb x y = true -> String.leb y z = true -> String.leb x z = true.
Proof.
  unfold String.leb. revert y z.
  induction x as [|a x IH]; intros [|b y] [|c z]; simpl;
    try (intros; first [reflexivity | discriminate]).
  unfold Ascii.compare.
  destruct (N.compare_spec (N_of_ascii a) (N_of_ascii b)) as [Hab|Hab|Hab];
  destruct (N.compare_spec (N_of_ascii b) (N_of_ascii c)) as [Hbc|Hbc|Hbc];
  destruct (N.compare_spec (N_of_ascii a) (N_of_ascii c)) as [Hac|Hac|Hac];
  intros H1 H2; try discriminate; try reflexivity; try lia.
  apply (IH y z); assumption.
Qed.

Lemma insert_sorted_comm (x y : string) (l : list string) :
  HTTPHash.insert_sorted x (HTTPHash.insert_sorted y l) =
  HTTPHash.insert_sorted y (HTTPHash.insert_sorted x l).
Proof.
  induction l as [|z l IH]; simpl.
  - destruct (String.leb x y) eqn:Exy, (String.leb y x) eqn:Eyx; try reflexivity.
    + rewrite (String.leb_antisym x y Exy Eyx). reflexivity.
    + destruct (String.leb_total x y); congruence.
  - destruct (String.leb y z) eqn:Eyz, (String.leb x z) eqn:Exz; simpl;
      rewrite ?Eyz, ?Exz.
    + destruct (String.leb x y) eqn:Exy, (String.leb y x) eqn:Eyx; try reflexivity.
      * rewrite (String.leb_antisym x y Exy Eyx). reflexivity.
      * destruct (String.leb_total x y); congruence.
    + destruct (String.leb x y) eqn:Exy; [|reflexivity].
      rewrite (string_leb_trans x y z Exy Eyz) in Exz. discriminate.
    + destruct (String.leb y x) eqn:Eyx; [|reflexivity].
      rewrite (string_leb_trans y x z Eyx Exz) in Eyz. discriminate.
    + rewrite IH. reflexivity.
Qed.

Lemma sort_strings_perm (l1 l2 : list string) :
  Permutation l1 l2 -> HTTPHash.sort_strings l1 = HTTPHash.sort_strings l2.
Proof.
  unfold HTTPHash.sort_strings. induction 1; simpl.
  - reflexivity.
  - rewrite IHPermutation. reflexivity.
  - apply insert_sorted_comm.
  - congruence.
Qed.

Lemma map_get_perm (k : string) (h1 h2 : gomap) :
  Permutation h1 h2 -> NoDup (map fst h1) -> map_get k h1 = map_get k h2.
Proof.
  induction 1 as [|[k1 v1] l l' P IH|[k1 v1] [k2 v2] l|l l' l'' P1 IH1 P2 IH2]; intros Hnd; simpl.
  - reflexivity.
  - inversion Hnd; subst. rewrite IH by assumption. reflexivity.
  - inversion Hnd as [|? ? Hn1 Hnd1]; subst. simpl in Hn1.
    destruct (String.eqb_spec k k2), (String.eqb_spec k k1); subst; try reflexivity.
    exfalso. apply Hn1. left. reflexivity.
  - rewrite IH1 by assumption. apply IH2.
    apply (Permutation_NoDup (Permutation_map fst P1)). exact Hnd.
Qed.

Lemma smap_get_set_eq (k : string) (v : HTTP.sval) (m : HTTP.smap) :
  HTTPHash.smap_get k (HTTP.smap_set k v m) = Some v.
Proof.
  induction m as [|[k' v'] m IH]; simpl; [rewrite String.eqb_refl; reflexivity|].
  destruct (String.eqb_spec k k') as [->|Hk]; simpl; [rewrite String.eqb_refl; reflexivity|].
  apply String.eqb_neq in Hk. rewrite Hk. exact IH.
Qed.

Lemma smap_get_set_neq (k k2 : string) (v : HTTP.sval) (m : HTTP.smap) :
  k2 <> k -> HTTPHash.smap_get k2 (HTTP.smap_set k v m) = HTTPHash.smap_get k2 m.
Proof.
  intros Hne. induction m as [|[k' v'] m IH]; simpl.
  - apply String.eqb_neq in Hne. rewrite Hne. reflexivity.
  - destruct (String.eqb_spec k k') as [->|Hk]; simpl.
    + apply String.eqb_neq in Hne. rewrite Hne. reflexivity.
    + destruct (String.eqb k2 k'); [reflexivity | exact IH].
Qed.

Lemma string_append_empty_r (s : string) : (s ++ "")%string = s.
Proof. induction s as [|c s IH]; simpl; [reflexivity | rewrite IH; reflexivity]. Qed.

Lemma write_string_written (m1 m2 : HTTP.smap) (a : string) (b : result string) :
  string_written (HTTPHash.smap_get a m1) = string_written (HTTPHash.smap_get a m2) ->
  HTTPHash.write_string m1 a b = HTTPHash.write_string m2 a b.
Proof.
  unfold HTTPHash.write_string, string_written. intros E.
  destruct b as [b|e]; [|reflexivity].
  destruct (HTTPHash.smap_get a m1) as [[v1|i1|h1]|], (HTTPHash.smap_get a m2) as [[v2|i2|h2]|];
    try discriminate; try reflexivity;
    injection E as E;
    repeat match goal with
           | H : context [String.eqb ?v ""] |- _ => destruct (String.eqb v "")
           | |- context [String.eqb ?v ""] => destruct (String.eqb v "")
           end;
    subst; try first [rewrite E | rewrite <- E]; rewrite ?string_append_empty_r; reflexivity.
Qed.

Lemma hash_buffer_ext (m1 m2 : HTTP.smap) :
  (forall a, In a hash_string_attrs ->
     string_written (HTTPHash.smap_get a m1) = string_written (HTTPHash.smap_get a m2)) ->
  (forall b, HTTPHash.write_headers m1 b = HTTPHash.write_headers m2 b) ->
  HTTPHash.smap_get "read_limit" m1 = HTTPHash.smap_get "read_limit" m2 ->
  HTTPHash.hashCheckHTTP m1 = HTTPHash.hashCheckHTTP m2.
Proof.
  intros Hs Hh Hr. unfold HTTPHash.hashCheckHTTP, HTTPHash.hash_buffer.
  repeat match goal with
         | |- context [HTTPHash.write_string m1 ?a ?b] =>
             rewrite (write_string_written m1 m2 a b) by (apply Hs; simpl; tauto)
         end.
  rewrite Hh. unfold HTTPHash.write_int at 1. rewrite Hr. reflexivity.
Qed.

(** [hashCheckHTTP] does not depend on the order in which the headers map
    is iterated: two [headers] maps with the same entries (no key twice, as
    in a Go map) give the same hash, because the header names are sorted
    before they are written. *)
Theorem http_hash_header_order (m : HTTP.smap) (h1 h2 : gomap) :
  Permutation h1 h2 -> NoDup (map fst h1) ->
  HTTPHash.hashCheckHTTP (HTTP.smap_set "headers" (HTTP.SMap h1) m) =
  HTTPHash.hashCheckHTTP (HTTP.smap_set "headers" (HTTP.SMap h2) m).
Proof.
  intros P Hnd. apply hash_buffer_ext.
  - intros a Ha. rewrite !smap_get_set_neq; [reflexivity| |];
      intros ->; simpl in Ha; intuition discriminate.
  - intros [b|e]; [|reflexivity]. unfold HTTPHash.write_headers.
    rewrite !smap_get_set_eq.
    rewrite (sort_strings_perm _ _ (Permutation_map fst P)).
    f_equal. generalize b.
    induction (HTTPHash.sort_strings (map fst h2)) as [|k ks IH]; intros b0; simpl; [reflexivity|].
    unfold map_get_zero. rewrite (map_get_perm k h1 h2 P Hnd). apply IH.
  - rewrite !smap_get_set_neq by discriminate. reflexivity.
Qed.

Lemma http_hash_header_order_witness :
  Permutation [("Accept", "text/plain"); ("Host", "example.com")]
              [("Host", "example.com"); ("Accept", "text/plain")] /\
  NoDup (map fst [("Accept", "text/plain"); ("Host", "example.com")]) /\
  HTTPHash.hashCheckHTTP (HTTP.smap_set "headers" (HTTP.SMap [("Accept", "text/plain"); ("Host", "example.com")])
                            [("url", HTTP.SStr "http://example.com/")]) =
  HTTPHash.hashCheckHTTP (HTTP.smap_set "headers" (HTTP.SMap [("Host", "example.com"); ("Accept", "text/plain")])
                            [("url", HTTP.SStr "http://example.com/")]).
Proof.
  assert (P : Permutation [("Accept", "text/plain"); ("Host", "example.com")]
                          [("Host", "example.com"); ("Accept", "text/plain")]) by apply perm_swap.
  assert (N : NoDup (map fst [("Accept", "text/plain"); ("Host", "example.com")])).
  { simpl. constructor; [simpl; intros [H|[]]; discriminate | constructor; [intros []|constructor]]. }
  split; [exact P|]. split; [exact N|].
  apply http_hash_header_order; [exact P | exact N].
Defined.

(** [hashCheckHTTP] sees a string attribute only through its
    [strings.TrimSpace]d value: two non-empty values with the same trimmed
    text give the same hash, and an attribute set to "" hashes like an
    absent one. *)
Theorem http_hash_trimmed_values (m : HTTP.smap) (a v1 v2 : string) :
  In a hash_string_attrs ->
  v1 <> "" -> v2 <> "" -> HTTPHash.TrimSpace v1 = HTTPHash.TrimSpace v2 ->
  HTTPHash.hashCheckHTTP (HTTP.smap_set a (HTTP.SStr v1) m) =
  HTTPHash.hashCheckHTTP (HTTP.smap_set a (HTTP.SStr v2) m) /\
  (HTTPHash.smap_get a m = None ->
   HTTPHash.hashCheckHTTP (HTTP.smap_set a (HTTP.SStr "") m) = HTTPHash.hashCheckHTTP m).
Proof.
  intros Ha H1 H2 Ht.
  assert (Hh : a <> "headers") by (intros ->; simpl in Ha; intuition discriminate).
  assert (Hr : a <> "read_limit") by (intros ->; simpl in Ha; intuition discriminate).
  split; [|intros Hn]; apply hash_buffer_ext.
  - intros a' _. destruct (String.eqb_spec a' a) as [->|Hne].
    + rewrite !smap_get_set_eq. simpl.
      apply String.eqb_neq in H1, H2. rewrite H1, H2, Ht. reflexivity.
    + rewrite !smap_get_set_neq by exact Hne. reflexivity.
  - intros [b|e]; [|reflexivity]. unfold HTTPHash.write_headers.
    rewrite !smap_get_set_neq by congruence. reflexivity.
  - rewrite !smap_get_set_neq by congruence. reflexivity.
  - intros a' _. destruct (String.eqb_spec a' a) as [->|Hne].
    + rewrite smap_get_set_eq, Hn. reflexivity.
    + rewrite smap_get_set_neq by exact Hne. reflexivity.
  - intros [b|e]; [|reflexivity]. unfold HTTPHash.write_headers.
    rewrite smap_get_set_neq by congruence. reflexivity.
  - rewrite smap_get_set_neq by congruence. reflexivity.
Qed.

Lemma http_hash_trimmed_values_witness :
  HTTPHash.hashCheckHTTP (HTTP.smap_set "method" (HTTP.SStr " GET"%string)
                            [("url", HTTP.SStr "http://example.com/")]) =
  HTTPHash.hashCheckHTTP (HTTP.smap_set "method" (HTTP.SStr "GET")
                            [("url", HTTP.SStr "http://example.com/")]) /\
  (HTTPHash.smap_get "method" [("url", HTTP.SStr "http://example.com/")] = None ->
   HTTPHash.hashCheckHTTP (HTTP.smap_set "method" (HTTP.SStr "")
                             [("url", HTTP.SStr "http://example.com/")]) =
   HTTPHash.hashCheckHTTP [("url", HTTP.SStr "http://example.com/")]).
Proof.
  apply http_hash_trimmed_values.
  - simpl. tauto.
  - discriminate.
  - discriminate.
  - vm_compute. reflexivity.
Defined.

(** [hashCheckHTTP] writes the attributes one after the other with no
    separator, so moving the end of [auth_method] into an absent
    [auth_password] does not change the hash (when no surrounding space is
    trimmed away). *)
Theorem http_hash_concat_collision (m : HTTP.smap) (x y : string) :
  HTTPHash.smap_get "auth_method" m = None -> HTTPHash.smap_get "auth_password" m = None ->
  x <> "" -> y <> "" ->
  HTTPHash.TrimSpace x = x -> HTTPHash.TrimSpace y = y -> HTTPHash.TrimSpace (x ++ y) = (x ++ y)%string ->
  HTTPHash.hashCheckHTTP (("auth_method", HTTP.SStr (x ++ y)) :: m) =
  HTTPHash.hashCheckHTTP (("auth_method", HTTP.SStr x) :: ("auth_password", HTTP.SStr y) :: m).
Proof.
  intros Hm Hp Hx Hy Tx Ty Txy.
  assert (Hxy : (x ++ y)%string <> "") by (destruct x; [congruence | discriminate]).
  apply String.eqb_neq in Hx, Hy, Hxy.
  set (m1 := ("auth_method", HTTP.SStr (x ++ y)) :: m).
  set (m2 := ("auth_method", HTTP.SStr x) :: ("auth_password", HTTP.SStr y) :: m).
  assert (E1 : HTTPHash.write_string m1 "auth_password" (HTTPHash.write_string m1 "auth_method" (Ok ""))
               = Ok (x ++ y)%string).
  { unfold HTTPHash.write_string. simpl. rewrite Hp, Hxy, Txy. reflexivity. }
  assert (E2 : HTTPHash.write_string m2 "auth_password" (HTTPHash.write_string m2 "auth_method" (Ok ""))
               = Ok (x ++ y)%string).
  { unfold HTTPHash.write_string. simpl. rewrite Hx, Hy, Tx, Ty. reflexivity. }
  unfold HTTPHash.hashCheckHTTP, HTTPHash.hash_buffer. cbv zeta.
  rewrite E1, E2.
  repeat match goal with
         | |- context [HTTPHash.write_string m1 ?a ?b] =>
             rewrite (write_string_written m1 m2 a b) by reflexivity
         end.
  assert (Eh : forall b, HTTPHash.write_headers m1 b = HTTPHash.write_headers m2 b)
    by reflexivity.
  rewrite Eh. reflexivity.
Qed.

Lemma http_hash_concat_collision_witness :
  HTTPHash.hashCheckHTTP [("auth_method", HTTP.SStr ("Dig" ++ "est")); ("url", HTTP.SStr "http://example.com/")] =
  HTTPHash.hashCheckHTTP [("auth_method", HTTP.SStr "Dig"); ("auth_password", HTTP.SStr "est");
                          ("url", HTTP.SStr "http://example.com/")].
Proof.
  apply (http_hash_concat_collision [("url", HTTP.SStr "http://example.com/")] "Dig" "est");
    first [reflexivity | discriminate | vm_compute; reflexivity].
Defined.

Lemma keys_map_del (a k : string) (s : gomap) :
  In k (map fst (map_del a s)) <-> In k (map fst s) /\ k <> a.
Proof.
  unfold map_del. induction s as [|[k' v] s IH]; simpl; [tauto|].
  destruct (String.eqb_spec a k') as [<-|Hne]; simpl; rewrite IH.
  - split; [intros [H1 H2]; auto | intros [[H1|H1] H2]; [congruence | auto]].
  - split; [intros [<-|[H1 H2]]; auto | intros [[<-|H1] H2]; auto].
Qed.

Lemma header_loop_keys (config hdrs swamp : gomap) (k : string) :
  In k (map fst (snd (HTTP.header_loop config hdrs swamp))) <->
  In k (map fst swamp) /\ ~ (In k (map fst config) /\ (7 < String.length k)%nat).
Proof.
  unfold HTTP.header_loop. revert hdrs swamp.
  induction config as [|[k' v] c IH]; intros hdrs swamp; simpl; [tauto|].
  destruct (Nat.leb (String.length k') 7) eqn:E.
  - rewrite IH. apply Nat.leb_le in E.
    split; [intros [H1 H2]; split; [exact H1 | intros [[<-|H3] H4]; [lia | auto]]
           | intros [H1 H2]; split; [exact H1 | intros [H3 H4]; apply H2; auto]].
  - rewrite IH, keys_map_del. apply Nat.leb_gt in E.
    split; [intros [[H1 H2] H3]; split; [exact H1 | intros [[<-|H4] H5]; [congruence | auto]]
           | intros [H1 H2]; split; [split; [exact H1 | intros ->; apply H2; auto] | intros [H3 H4]; apply H2; auto]].
Qed.

Lemma swamp_loop_short (ks : list string) (config : gomap) :
  (forall k, In k ks -> (String.length k <= 7)%nat) ->
  HTTP.swamp_loop ks config =
  (config, match ks with [] => None | _ :: _ => Some "PROVIDER BUG: API Config not empty" end).
Proof.
  destruct ks as [|k ks]; intros H; [reflexivity|]. simpl.
  specialize (H k (or_introl eq_refl)).
  assert (Hw : HTTP.whitelisted k = false).
  { unfold HTTP.whitelisted.
    destruct (String.eqb_spec k HTTP.config_ReverseSecretKey) as [->|_]; [cbv in H; lia|].
    destruct (String.eqb_spec k HTTP.config_SubmissionURL) as [->|_]; [cbv in H; lia|].
    reflexivity. }
  rewrite Hw. reflexivity.
Qed.

Lemma swamp_result (config : gomap) (F : list string) (hc : HTTP.smap) :
  (forall k, In k F <-> In k (map fst config) /\ (String.length k <= 7)%nat /\
                        ~ In k ["url"; "body"; "code"; "method"; "ciphers"; "extract"; "payload"]) ->
  fst (let '(c', o) := HTTP.swamp_loop F config in
       match o with Some e => (c', Err e) | None => (c', Ok hc) end) = config /\
  (is_err (snd (let '(c', o) := HTTP.swamp_loop F config in
                match o with Some e => (c', Err e) | None => (c', Ok hc) end)) = true <->
   exists k, In k (map fst config) /\ (String.length k <= 7)%nat /\
             ~ In k ["url"; "body"; "code"; "method"; "ciphers"; "extract"; "payload"]).
Proof.
  intros HF. rewrite swamp_loop_short by (intros k Hk; apply HF in Hk; tauto).
  destruct F as [|k0 F]; simpl; split; try reflexivity; split.
  - discriminate.
  - intros [k Hk]. destruct (proj2 (HF k) Hk).
  - intros _. exists k0. apply HF. left. reflexivity.
  - intros _. reflexivity.
Qed.

(** [checkAPIToStateHTTP] fails exactly when the API config has a key of
    at most 7 bytes other than [url], [body], [code], [method], [ciphers],
    [extract] and [payload]: every longer key is dropped by the header
    loop.  It never changes [c.Config]: the whitelisted keys are longer than
    7 bytes and never reach the final loop that deletes them. *)
Theorem http_api_to_state_error_iff (config : gomap) :
  fst (HTTP.checkAPIToStateHTTP config) = config /\
  (is_err (snd (HTTP.checkAPIToStateHTTP config)) = true <->
   exists k, In k (map fst config) /\ (String.length k <= 7)%nat /\
             ~ In k ["url"; "body"; "code"; "method"; "ciphers"; "extract"; "payload"]).
Proof.
  unfold HTTP.checkAPIToStateHTTP, HTTP.saveString. cbv beta iota zeta.
  destruct (HTTP.header_loop _ _ _) as [hdrs sw] eqn:EH.
  assert (Hsw : forall k, In k (map fst sw) <->
            In k (map fst (snd (HTTP.header_loop config [] (map_del HTTP.config_Extract
              (map_del HTTP.config_Code (map_del HTTP.config_Ciphers (map_del HTTP.config_CertFile
              (map_del HTTP.config_CAChain (map_del HTTP.config_Body (map_del HTTP.config_AuthUser
              (map_del HTTP.config_AuthPassword (map_del HTTP.config_AuthMethod config))))))))))))).
  { intros k. rewrite EH. reflexivity. }
  unfold HTTP.saveInt.
  destruct (map_get HTTP.config_ReadLimit config); [destruct (go_parse_int64 s)|];
    cbv beta iota zeta; apply swamp_result; intros k;
    rewrite !keys_map_del, Hsw, header_loop_keys, !keys_map_del;
    split.
  all: cycle 1.
  all: try (intros [Hin [Hlen Hnin]]; repeat split;
            first [ assumption
                  | intros [_ ?]; lia
                  | intros E; first [ apply Hnin, existsb_eqb_In; rewrite E; reflexivity
                                    | rewrite E in Hlen; cbv in Hlen; lia ] ]).
  all: intros H; repeat match goal with H : _ /\ _ |- _ => destruct H end;
    split; [assumption|]; split;
    [ apply Nat.nlt_ge; intros Hlt;
      match goal with H : ~ (_ /\ _) |- _ => apply H end; split; assumption
    | intros Hin; simpl in Hin; repeat destruct Hin as [Hin|Hin];
      first [ contradiction
            | match goal with E : _ = ?x, H : ?x <> _ |- _ => apply H; rewrite <- E; reflexivity end ] ].
Qed.

Lemma check_ids_by_collector_from_err (i : nat) (brokers checks : list string) (m : gomap) :
  (i <= length checks)%nat -> (length checks < i + length brokers)%nat ->
  is_err (CheckMore.check_ids_by_collector_from i brokers checks m) = true.
Proof.
  revert i m. induction brokers as [|b bs IH]; intros i m Hi H; simpl in *; [lia|].
  destruct (nth_error checks i) eqn:E; [|reflexivity].
  assert (i < length checks)%nat by (apply nth_error_Some; congruence).
  apply IH; lia.
Qed.

Lemma check_ids_by_collector_from_ok (i : nat) (brokers checks : list string) (m : gomap) :
  (i + length brokers <= length checks)%nat ->
  exists m', CheckMore.check_ids_by_collector_from i brokers checks m = Ok m' /\
    (NoDup brokers -> forall j b, nth_error brokers j = Some b -> map_get b m' = nth_error checks (i + j)) /\
    (forall k, ~ In k brokers -> map_get k m' = map_get k m).
Proof.
  revert i m. induction brokers as [|b bs IH]; intros i m H; simpl in *.
  - exists m. split; [reflexivity|]. split; [|intros; reflexivity].
    intros _ [|j] b; discriminate.
  - destruct (nth_error checks i) as [c|] eqn:E.
    2: { apply nth_error_None in E. lia. }
    destruct (IH (S i) (map_set b c m)) as [m' [R [H1 H2]]]; [lia|].
    exists m'. split; [exact R|]. split.
    + intros Hnd [|j] b' Hj; simpl in Hj.
      * injection Hj as <-. inversion Hnd; subst.
        rewrite H2 by assumption. rewrite map_get_set_eq, Nat.add_0_r. symmetry; exact E.
      * inversion Hnd; subst. rewrite (H1 ltac:(assumption) j b' Hj). f_equal. lia.
    + intros k Hk. rewrite H2 by (intros Hin; apply Hk; right; exact Hin).
      apply map_get_set_neq. intros ->. apply Hk. left. reflexivity.
Qed.

(** [checkRead] panics (index out of range) when the check bundle lists
    fewer checks than brokers; otherwise, with distinct brokers, the map it
    stores under [out_by_collector] sends the [i]-th broker to the [i]-th
    check and has no other key. *)
Theorem check_read_ids_by_collector (brokers checks : list string) :
  ((length checks < length brokers)%nat ->
   is_err (CheckMore.check_ids_by_collector brokers checks) = true) /\
  ((length brokers <= length checks)%nat ->
   exists m, CheckMore.check_ids_by_collector brokers checks = Ok m /\
     (NoDup brokers -> forall i b, nth_error brokers i = Some b -> map_get b m = nth_error checks i) /\
     (forall k, ~ In k brokers -> map_get k m = None)).
Proof.
  split; intros H.
  - apply check_ids_by_collector_from_err; simpl; lia.
  - destruct (check_ids_by_collector_from_ok 0 brokers checks [] H) as [m [R [H1 H2]]].
    exists m. split; [exact R|]. split; [exact H1 | exact H2].
Qed.

Lemma check_read_ids_by_collector_witness :
  is_err (CheckMore.check_ids_by_collector ["b1"; "b2"] ["c1"]) = true /\
  (exists m, CheckMore.check_ids_by_collector ["b1"; "b2"] ["c1"; "c2"] = Ok m /\
             map_get "b2" m = Some "c2").
Proof.
  split.
  - apply (proj1 (check_read_ids_by_collector ["b1"; "b2"] ["c1"])). simpl. lia.
  - destruct (proj2 (check_read_ids_by_collector ["b1"; "b2"] ["c1"; "c2"]) ltac:(simpl; lia))
      as [m [R [H1 _]]].
    exists m. split; [exact R|].
    apply (H1 ltac:(constructor; [simpl; intros [H|[]]; discriminate | constructor; [intros []|constructor]])
              1%nat "b2" eq_refl).
Defined.
